(** * Driver.cpp: colour histogram, dominant colour and colour substitution

    A shallow embedding of the three image routines of [Driver.cpp]
    ([createColorHistogram], [findMostCommonColor], [replaceMostCommonColor])
    and of their composition [createOverlayImage], together with the
    properties of the written specification that concern them.

    Conventions of the embedding:
    - a C [int] is a [Z]; where an [int] operation of the source can leave
      the 32-bit range on some input its two's-complement wrap-around is
      written out ([wrap_int]);
    - an [uchar] is a [Byte.byte], read as a number by [uchar_to_int]
      (the integral promotion of the source);
    - a [cv::Mat] of [Vec3b] is a record of its [rows], its [cols] and its
      row-major pixel buffer; the histogram, a 4x4x4 [cv::Mat] of [int], is
      its row-major cell buffer;
    - an access outside a buffer and a remainder by zero have no defined
      result in the source: the embedded routines return in the [result]
      monad, whose [Undefined] case names the fault. *)

From Stdlib Require Import ZArith Lia.
From Stdlib.Strings Require Import Byte.
From stdpp Require Import base tactics option list list_numbers.

Local Open Scope Z_scope.

(** ** Constants *)

Definition SIZE : Z := 4.
Definition BUCKET_SIZE : Z := Z.quot 256 SIZE.
Definition DIMS : Z := 3.
Definition RED_PIX : Z := 2.
Definition GREEN_PIX : Z := 1.
Definition BLUE_PIX : Z := 0.

(** ** C integers *)

Definition INT_MAX : Z := 2147483647.

(** Two's-complement reduction of a mathematical integer to a 32-bit [int]. *)
Definition wrap_int (x : Z) : Z := (x + 2147483648) mod 4294967296 - 2147483648.

(** ** Undefined behaviour as an error monad *)

Inductive fault : Type :=
| DivideByZero
| OutOfBounds.

Inductive result (A : Type) : Type :=
| Ok (a : A)
| Undefined (f : fault).

Arguments Ok {A} a.
Arguments Undefined {A} f.

Definition bind {A B : Type} (m : result A) (k : A -> result B) : result B :=
  match m with
  | Ok a => k a
  | Undefined f => Undefined f
  end.

Notation "'do' x <- m ; k" := (bind m (fun x => k))
  (at level 10, x name, m at level 100, k at level 200).
Notation "'do' ' pat <- m ; k" := (bind m (fun x => match x with pat => k end))
  (at level 10, pat pattern, m at level 100, k at level 200).

(** [a % b] on [int]: truncated remainder, undefined for a zero divisor. *)
Definition int_rem (a b : Z) : result Z :=
  if b =? 0 then Undefined DivideByZero else Ok (Z.rem a b).

(** [for (int i = 0; i < n; i++) body]: the body is run on 0, 1, ..., n-1 in
    turn, threading the state; no iteration when [n <= 0]. *)
Fixpoint for_each {I S : Type} (idx : list I) (body : I -> S -> result S) (s : S)
  : result S :=
  match idx with
  | [] => Ok s
  | i :: rest => do s' <- body i s; for_each rest body s'
  end.

Definition for_loop {S : Type} (n : Z) (body : Z -> S -> result S) (s : S)
  : result S :=
  for_each (seqZ 0 n) body s.

(** ** Pixels and images *)

Definition uchar : Type := byte.

Definition uchar_to_int (c : uchar) : Z := Z.of_N (Byte.to_N c).

(** [Vec3b]: three channels, stored blue, green, red. *)
Record Vec3b : Type := mkVec3b { ch0 : uchar; ch1 : uchar; ch2 : uchar }.

(** [p[c]] for a channel constant [c] (only [BLUE_PIX], [GREEN_PIX] and
    [RED_PIX] occur in the source). *)
Definition vec_get (p : Vec3b) (c : Z) : uchar :=
  if c =? 0 then ch0 p else if c =? 1 then ch1 p else ch2 p.

(** [p[c] = v]. *)
Definition vec_set (p : Vec3b) (c : Z) (v : uchar) : Vec3b :=
  if c =? 0 then mkVec3b v (ch1 p) (ch2 p)
  else if c =? 1 then mkVec3b (ch0 p) v (ch2 p)
  else mkVec3b (ch0 p) (ch1 p) v.

(** A two-dimensional [cv::Mat] of [Vec3b]. *)
Record Mat : Type := mkMat { rows : Z; cols : Z; data : list Vec3b }.

(** The header of a matrix agrees with its buffer. *)
Definition Mat_ok (m : Mat) : Prop :=
  0 <= rows m /\ 0 <= cols m /\ Z.of_nat (length (data m)) = rows m * cols m.

Definition in_mat (m : Mat) (i j : Z) : bool :=
  (0 <=? i) && (i <? rows m) && (0 <=? j) && (j <? cols m).

Definition mat_offset (m : Mat) (i j : Z) : nat := Z.to_nat (i * cols m + j).

(** [m.at<Vec3b>(i, j)] *)
Definition mat_at (m : Mat) (i j : Z) : result Vec3b :=
  if in_mat m i j then
    match data m !! mat_offset m i j with
    | Some p => Ok p
    | None => Undefined OutOfBounds
    end
  else Undefined OutOfBounds.

(** [m.at<Vec3b>(i, j)[c] = v] *)
Definition mat_set (m : Mat) (i j c : Z) (v : uchar) : result Mat :=
  do p <- mat_at m i j;
  Ok (mkMat (rows m) (cols m) (<[mat_offset m i j := vec_set p c v]> (data m))).

(** ** The histogram: a [SIZE] x [SIZE] x [SIZE] matrix of [int] *)

Definition hist_index (r g b : Z) : Z := (r * SIZE + g) * SIZE + b.

Definition in_grid (r g b : Z) : bool :=
  (0 <=? r) && (r <? SIZE) && (0 <=? g) && (g <? SIZE) && (0 <=? b) && (b <? SIZE).

(** [hist.at<int>(r, g, b)] *)
Definition hist_at (hist : list Z) (r g b : Z) : result Z :=
  if in_grid r g b then
    match hist !! Z.to_nat (hist_index r g b) with
    | Some c => Ok c
    | None => Undefined OutOfBounds
    end
  else Undefined OutOfBounds.

(** [hist.at<int>(r, g, b)++] *)
Definition hist_incr (hist : list Z) (r g b : Z) : result (list Z) :=
  do c <- hist_at hist r g b;
  Ok (<[Z.to_nat (hist_index r g b) := wrap_int (c + 1)]> hist).

(** [Mat hist(3, dims, CV_32S, Scalar::all(0))] *)
Definition hist_zero : list Z := replicate (Z.to_nat (SIZE * SIZE * SIZE)) 0.

(** ** createColorHistogram *)

Definition createColorHistogram (image : Mat) : result (list Z) :=
  for_loop (rows image - 1) (fun row hist =>
    for_loop (cols image - 1) (fun col hist =>
      do pr <- mat_at image row col;
      let r := Z.quot (uchar_to_int (vec_get pr RED_PIX)) BUCKET_SIZE in
      do pg <- mat_at image row col;
      let g := Z.quot (uchar_to_int (vec_get pg GREEN_PIX)) BUCKET_SIZE in
      do pb <- mat_at image row col;
      let b := Z.quot (uchar_to_int (vec_get pb BLUE_PIX)) BUCKET_SIZE in
      hist_incr hist r g b) hist) hist_zero.

(** ** findMostCommonColor *)

(** The loop state: the in-out parameters [r], [g], [b] and the local
    [highestValue]. *)
Record scan_state : Type :=
  mkScan { best_r : Z; best_g : Z; best_b : Z; highestValue : Z }.

Definition scan_cell (hist : list Z) (i j k : Z) (s : scan_state)
  : result scan_state :=
  do v <- hist_at hist i j k;
  if v >? highestValue s then
    do v' <- hist_at hist i j k;
    Ok (mkScan i j k v')
  else Ok s.

(** [r], [g], [b] are passed by reference: the values the caller holds in
    them are the first three arguments, the values it finds there afterwards
    the result. *)
Definition findMostCommonColor (r g b : Z) (hist : list Z) : result (Z * Z * Z) :=
  do h0 <- hist_at hist 0 0 0;
  do s <- for_loop SIZE (fun i s =>
            for_loop SIZE (fun j s =>
              for_loop SIZE (fun k s => scan_cell hist i j k s) s) s)
            (mkScan r g b h0);
  Ok (wrap_int (best_r s * BUCKET_SIZE + Z.quot BUCKET_SIZE 2),
      wrap_int (best_g s * BUCKET_SIZE + Z.quot BUCKET_SIZE 2),
      wrap_int (best_b s * BUCKET_SIZE + Z.quot BUCKET_SIZE 2)).

(** ** replaceMostCommonColor *)

(** The condition of the [if]: each channel, promoted to [int], within
    [BUCKET_SIZE] of the corresponding colour value. *)
Definition within_bucket (r g b : Z) (p : Vec3b) : bool :=
  (uchar_to_int (vec_get p RED_PIX) - BUCKET_SIZE <=? r) &&
  (uchar_to_int (vec_get p RED_PIX) + BUCKET_SIZE >=? r) &&
  (uchar_to_int (vec_get p GREEN_PIX) - BUCKET_SIZE <=? g) &&
  (uchar_to_int (vec_get p GREEN_PIX) + BUCKET_SIZE >=? g) &&
  (uchar_to_int (vec_get p BLUE_PIX) - BUCKET_SIZE <=? b) &&
  (uchar_to_int (vec_get p BLUE_PIX) + BUCKET_SIZE >=? b).

(** [replacement.at<Vec3b>(i % replacement.rows, j % replacement.cols)] *)
Definition replacement_at (replacement : Mat) (i j : Z) : result Vec3b :=
  do ri <- int_rem i (rows replacement);
  do rj <- int_rem j (cols replacement);
  mat_at replacement ri rj.

(** One channel assignment of the body. *)
Definition copy_channel (replacement : Mat) (i j c : Z) (target : Mat)
  : result Mat :=
  do q <- replacement_at replacement i j;
  mat_set target i j c (vec_get q c).

Definition replace_pixel (r g b : Z) (replacement : Mat) (i j : Z) (target : Mat)
  : result Mat :=
  do p <- mat_at target i j;
  if within_bucket r g b p then
    do t1 <- copy_channel replacement i j RED_PIX target;
    do t2 <- copy_channel replacement i j GREEN_PIX t1;
    copy_channel replacement i j BLUE_PIX t2
  else Ok target.

(** The loop bounds [target.rows - 1] and [target.cols - 1] are read from the
    matrix on entry: the body writes pixels only, never the header. *)
Definition replaceMostCommonColor (r g b : Z) (target replacement : Mat)
  : result Mat :=
  for_loop (rows target - 1) (fun i t =>
    for_loop (cols target - 1) (fun j t =>
      replace_pixel r g b replacement i j t) t) target.

(** ** createOverlayImage *)

Definition createOverlayImage (foreground background : Mat) : result Mat :=
  let mostCommon_r := 0 in
  let mostCommon_g := 0 in
  let mostCommon_b := 0 in
  let output := foreground in
  do hist <- createColorHistogram foreground;
  do '(mostCommon_r, mostCommon_g, mostCommon_b) <-
    findMostCommonColor mostCommon_r mostCommon_g mostCommon_b hist;
  replaceMostCommonColor mostCommon_r mostCommon_g mostCommon_b output background.

(** ** Concrete pixels and images *)

(** The [uchar] of a number in 0..255. *)
Definition uc (v : Z) : uchar :=
  match Byte.of_N (Z.to_N v) with
  | Some c => c
  | None => x00
  end.

(** The pixel of red [r], green [g] and blue [b]. *)
Definition px (r g b : Z) : Vec3b := mkVec3b (uc b) (uc g) (uc r).

Definition image_2x2 : Mat :=
  mkMat 2 2 [px 10 10 10; px 10 10 10; px 200 200 200; px 0 0 0].

Definition target_3x3 : Mat := mkMat 3 3 (replicate 9 (px 10 10 10)).

Definition replacement_1x1 : Mat := mkMat 1 1 [px 5 5 5].


(** [image_2x2] with other pixels in its last row and its last column. *)
Definition image_2x2_border : Mat :=
  mkMat 2 2 [px 10 10 10; px 1 2 3; px 4 5 6; px 7 8 9].

(** A one-row foreground. *)
Definition image_1x3 : Mat := mkMat 1 3 [px 200 10 10; px 200 10 10; px 0 0 255].

(** A replacement none of whose pixels is near (32,32,32). *)
Definition replacement_2x1 : Mat := mkMat 2 1 [px 200 200 200; px 150 5 5].

(** A replacement without pixels. *)
Definition replacement_0x0 : Mat := mkMat 0 0 [].

(** A histogram with a tie: cells (1,2,3) and (3,0,0) both hold 2. *)
Definition hist_tie : list Z :=
  <[Z.to_nat (hist_index 3 0 0) := 2]>
    (<[Z.to_nat (hist_index 1 2 3) := 2]> hist_zero).

(** [image_2x2] with another pixel of cell (0,0,0) at (0,0). *)
Definition image_2x2_shade : Mat :=
  mkMat 2 2 [px 63 0 33; px 1 2 3; px 4 5 6; px 7 8 9].

(** The histogram of [image_2x2]: one pixel counted, in cell (0,0,0). *)
Definition hist_2x2 : list Z := <[0%nat := 1]> hist_zero.

(** ** Positions visited by the two nested loops *)

(** The pairs [(i, j)] in the order in which a loop on [i] over [l1] around a
    loop on [j] over [l2] meets them. *)
Definition positions {I J : Type} (l1 : list I) (l2 : list J) : list (I * J) :=
  flat_map (fun i => map (pair i) l2) l1.

(** The positions both routines scan in a [rows] x [cols] matrix. *)
Definition scanned_positions (m : Mat) : list (Z * Z) :=
  positions (seqZ 0 (rows m - 1)) (seqZ 0 (cols m - 1)).

Definition scanned (m : Mat) (i j : Z) : bool :=
  (0 <=? i) && (i <? rows m - 1) && (0 <=? j) && (j <? cols m - 1).

(** The pixels met by the scan, in scan order. *)
Definition scanned_pixels (m : Mat) : list Vec3b :=
  omap (fun ij => data m !! mat_offset m ij.1 ij.2) (scanned_positions m).

(** ** Cells of the histogram, as the specification words them *)

(** The value [v] lies in bucket [i]: [i*W <= v < (i+1)*W]. *)
Definition in_bucket (i : Z) (v : uchar) : bool :=
  (i * BUCKET_SIZE <=? uchar_to_int v) && (uchar_to_int v <? (i + 1) * BUCKET_SIZE).

(** The pixel [p] belongs to cell [(i, j, k)]: red in bucket [i], green in
    bucket [j], blue in bucket [k]. *)
Definition in_cell (i j k : Z) (p : Vec3b) : bool :=
  in_bucket i (vec_get p RED_PIX) && in_bucket j (vec_get p GREEN_PIX)
  && in_bucket k (vec_get p BLUE_PIX).

(** How many pixels of [l] belong to cell [(i, j, k)]. *)
Definition count_in_cell (i j k : Z) (l : list Vec3b) : Z :=
  Z.of_nat (length (List.filter (in_cell i j k) l)).

(** The sum of all cells. *)
Definition hist_total (hist : list Z) : Z := foldr Z.add 0 hist.

(** The threshold condition of the specification:
    [|channel - dominant| <= W] on each channel. *)
Definition within_threshold (r g b : Z) (p : Vec3b) : Prop :=
  Z.abs (uchar_to_int (vec_get p RED_PIX) - r) <= BUCKET_SIZE
  /\ Z.abs (uchar_to_int (vec_get p GREEN_PIX) - g) <= BUCKET_SIZE
  /\ Z.abs (uchar_to_int (vec_get p BLUE_PIX) - b) <= BUCKET_SIZE.

(** ** The scan of the locator *)

(** The cells in the order of the three nested loops: [(i, (j, k))]. *)
Definition grid_cells : list (Z * (Z * Z)) :=
  positions (seqZ 0 SIZE) (positions (seqZ 0 SIZE) (seqZ 0 SIZE)).

(** Cell [(i', j', k')] is met before cell [(i, j, k)]: outer loop on the red
    bucket, middle loop on the green one, inner loop on the blue one. *)
Definition scan_before (i' j' k' i j k : Z) : Prop :=
  i' < i \/ (i' = i /\ (j' < j \/ (j' = j /\ k' < k))).

(** [(i, j, k)] is the first cell, in scan order, that holds the largest
    count of [hist]. *)
Definition first_max (hist : list Z) (i j k : Z) : Prop :=
  exists v,
    hist_at hist i j k = Ok v
    /\ (forall i' j' k' v', hist_at hist i' j' k' = Ok v' -> v' <= v)
    /\ (forall i' j' k' v',
          scan_before i' j' k' i j k -> hist_at hist i' j' k' = Ok v' -> v' < v).

(** The midpoint of bucket [idx]. *)
Definition midpoint (idx : Z) : Z := idx * 64 + 32.

(** ** Definitions the proofs go through *)

(** The whole-pixel write the three channel assignments amount to. *)
Definition mat_put (m : Mat) (i j : Z) (q : Vec3b) : Mat :=
  mkMat (rows m) (cols m) (<[mat_offset m i j := q]> (data m)).

(** The replacement pixel the tiling assigns to position [(i, j)]. *)
Definition tile (replacement : Mat) (i j : Z) : result Vec3b :=
  mat_at replacement (i mod rows replacement) (j mod cols replacement).

(** The pixel at [(i, j)] after the positions of [l] have been treated. *)
Definition substituted_on (r g b : Z) (replacement : Mat) (l : list (Z * Z))
    (t : Mat) (i j : Z) : result Vec3b :=
  do p <- mat_at t i j;
  if bool_decide ((i, j) ∈ l) && within_bucket r g b p
  then tile replacement i j else Ok p.

(** What the substituter leaves at [(i, j)]. *)
Definition substituted (r g b : Z) (replacement t : Mat) (i j : Z) : result Vec3b :=
  do p <- mat_at t i j;
  if scanned t i j && within_bucket r g b p then tile replacement i j else Ok p.

(** The bucket of a channel value, as the builder computes it. *)
Definition bucket_of (c : uchar) : Z := Z.quot (uchar_to_int c) BUCKET_SIZE.

(** A histogram has its [SIZE]^3 cells. *)
Definition hist_ok (hist : list Z) : Prop :=
  length hist = Z.to_nat (SIZE * SIZE * SIZE).

(** The cell a pixel is counted in. *)
Definition cell_index (p : Vec3b) : nat :=
  Z.to_nat (hist_index (bucket_of (vec_get p RED_PIX))
                       (bucket_of (vec_get p GREEN_PIX))
                       (bucket_of (vec_get p BLUE_PIX))).

(** The effect of one iteration of the builder on the histogram. *)
Definition tally (hist : list Z) (p : Vec3b) : list Z :=
  match hist !! cell_index p with
  | Some c => <[cell_index p := wrap_int (c + 1)]> hist
  | None => hist
  end.

(** Cells that are non-negative and leave room for [n] more increments. *)
Definition room_for (n : nat) (hist : list Z) : Prop :=
  forall i c, hist !! i = Some c -> 0 <= c /\ c + Z.of_nat n <= INT_MAX.

(** The count of a cell of [grid_cells]. *)
Definition cell_value (hist : list Z) (c : Z * (Z * Z)) : Z :=
  hist !!! Z.to_nat (hist_index c.1 c.2.1 c.2.2).

(** The effect of one iteration of the innermost loop. *)
Definition scan_step (hist : list Z) (s : scan_state) (c : Z * (Z * Z)) : scan_state :=
  if cell_value hist c >? highestValue s
  then mkScan c.1 c.2.1 c.2.2 (cell_value hist c)
  else s.

(** * Properties *)

(** ** The monad and the loops *)

Section Loops.
Context {I S : Type}.
Implicit Types (body : I -> S -> result S) (s : S).

Lemma for_each_app (l1 l2 : list I) body s :
  for_each (l1 ++ l2) body s = do s' <- for_each l1 body s; for_each l2 body s'.
Proof.
  revert s. induction l1 as [|i l1 IH]; intros s; simpl; [reflexivity|].
  destruct (body i s); simpl; auto.
Qed.

Lemma for_each_ext (l : list I) body body' s :
  (forall i s, i ∈ l -> body i s = body' i s) ->
  for_each l body s = for_each l body' s.
Proof.
  revert s. induction l as [|i l IH]; intros s Hext; simpl; [reflexivity|].
  rewrite Hext by apply list_elem_of_here.
  destruct (body' i s); simpl; [|reflexivity].
  apply IH. intros. apply Hext. by apply list_elem_of_further.
Qed.

(** A loop whose body is a pure step is a left fold. *)
Lemma for_each_pure (l : list I) (step : S -> I -> S) s :
  for_each l (fun i s => Ok (step s i)) s = Ok (fold_left step l s).
Proof. revert s. induction l as [|i l IH]; intros s; simpl; auto. Qed.
End Loops.

Lemma for_each_map {I J S : Type} (f : I -> J) (l : list I)
    (body : J -> S -> result S) (s : S) :
  for_each (map f l) body s = for_each l (fun i => body (f i)) s.
Proof.
  revert s. induction l as [|i l IH]; intros s; simpl; [reflexivity|].
  destruct (body (f i) s); simpl; auto.
Qed.

(** Two nested loops visit [positions] in order. *)
Lemma for_each_nested {I J S : Type} (l1 : list I) (l2 : list J)
    (body : I -> J -> S -> result S) (s : S) :
  for_each l1 (fun i s => for_each l2 (fun j s => body i j s) s) s
  = for_each (positions l1 l2) (fun ij s => body ij.1 ij.2 s) s.
Proof.
  revert s. induction l1 as [|i l1 IH]; intros s; simpl; [reflexivity|].
  unfold positions in *. simpl. rewrite for_each_app, for_each_map. simpl.
  destruct (for_each l2 _ s); simpl; auto.
Qed.

Lemma elem_of_positions {I J : Type} (l1 : list I) (l2 : list J) (i : I) (j : J) :
  (i, j) ∈ positions l1 l2 <-> i ∈ l1 /\ j ∈ l2.
Proof.
  unfold positions. rewrite list_elem_of_In, in_flat_map. split.
  - intros (x & Hx & Hin). apply in_map_iff in Hin as (y & Heq & Hy).
    inversion Heq; subst. by rewrite !list_elem_of_In.
  - intros [Hi Hj]. exists i. rewrite <- list_elem_of_In. split; [done|].
    apply in_map. by apply list_elem_of_In.
Qed.

Lemma NoDup_positions {I J : Type} (l1 : list I) (l2 : list J) :
  NoDup l1 -> NoDup l2 -> NoDup (positions l1 l2).
Proof.
  intros H1 H2. induction H1 as [|i l1 Hi H1 IH]; simpl; [constructor|].
  change (positions (i :: l1) l2) with (map (pair i) l2 ++ positions l1 l2).
  apply NoDup_app. split_and!; [| |exact IH].
  - by apply (NoDup_fmap_2 (pair i)).
  - intros [x y] Hin Hin'. apply list_elem_of_fmap in Hin as (y' & Heq & _).
    inversion Heq; subst. apply elem_of_positions in Hin' as [? _]. done.
Qed.

Lemma elem_of_scanned_positions (m : Mat) (i j : Z) :
  (i, j) ∈ scanned_positions m <-> scanned m i j = true.
Proof.
  unfold scanned_positions, scanned.
  rewrite elem_of_positions, !elem_of_seqZ, !andb_true_iff. lia.
Qed.

Lemma NoDup_scanned_positions (m : Mat) : NoDup (scanned_positions m).
Proof. apply NoDup_positions; apply NoDup_seqZ. Qed.

Lemma scanned_in_mat (m : Mat) (i j : Z) :
  scanned m i j = true -> in_mat m i j = true.
Proof. unfold scanned, in_mat. rewrite !andb_true_iff. lia. Qed.

(** ** Matrices *)

Lemma in_mat_spec (m : Mat) (i j : Z) :
  in_mat m i j = true <-> 0 <= i < rows m /\ 0 <= j < cols m.
Proof. unfold in_mat. rewrite !andb_true_iff. lia. Qed.

Lemma mat_offset_lt (m : Mat) (i j : Z) :
  Mat_ok m -> in_mat m i j = true -> (mat_offset m i j < length (data m))%nat.
Proof.
  intros (Hr & Hc & Hlen) Hin%in_mat_spec. unfold mat_offset.
  apply Nat2Z.inj_lt. rewrite Z2Nat.id by nia. nia.
Qed.

Lemma mat_offset_inj (m : Mat) (i j i' j' : Z) :
  in_mat m i j = true -> in_mat m i' j' = true ->
  mat_offset m i j = mat_offset m i' j' -> i = i' /\ j = j'.
Proof.
  intros Hin%in_mat_spec Hin'%in_mat_spec. unfold mat_offset. intros Heq.
  apply Z2Nat.inj in Heq; [|nia|nia].
  assert (i = i') by nia. subst. lia.
Qed.

(** In a well-formed matrix every position of the header is a pixel. *)
Lemma mat_at_ok (m : Mat) (i j : Z) :
  Mat_ok m -> in_mat m i j = true ->
  exists p, data m !! mat_offset m i j = Some p /\ mat_at m i j = Ok p.
Proof.
  intros Hok Hin. destruct (lookup_lt_is_Some_2 (data m) (mat_offset m i j)) as [p Hp].
  { by apply mat_offset_lt. }
  exists p. split; [done|]. unfold mat_at. by rewrite Hin, Hp.
Qed.

Lemma mat_at_elem_of (m : Mat) (i j : Z) (p : Vec3b) :
  mat_at m i j = Ok p -> p ∈ data m.
Proof.
  unfold mat_at. destruct (in_mat m i j); [|done].
  destruct (data m !! mat_offset m i j) eqn:Hp; [|done].
  intros [= <-]. by eapply list_elem_of_lookup_2.
Qed.

Lemma mat_put_ok (m : Mat) (i j : Z) (q : Vec3b) : Mat_ok m -> Mat_ok (mat_put m i j q).
Proof. unfold Mat_ok, mat_put. simpl. by rewrite length_insert. Qed.

Lemma mat_at_put_eq (m : Mat) (i j : Z) (q : Vec3b) :
  Mat_ok m -> in_mat m i j = true -> mat_at (mat_put m i j q) i j = Ok q.
Proof.
  intros Hok Hin. unfold mat_at, mat_put, in_mat, mat_offset in *. simpl.
  rewrite Hin, list_lookup_insert_eq; [done|]. by apply mat_offset_lt.
Qed.

Lemma mat_at_put_ne (m : Mat) (i j i' j' : Z) (q : Vec3b) :
  in_mat m i j = true -> (i, j) <> (i', j') ->
  mat_at (mat_put m i j q) i' j' = mat_at m i' j'.
Proof.
  intros Hin Hne. unfold mat_at.
  change (in_mat (mat_put m i j q) i' j') with (in_mat m i' j').
  destruct (in_mat m i' j') eqn:Hin'; [|done].
  unfold mat_put, mat_offset at 1. simpl. fold (mat_offset m i' j').
  rewrite list_lookup_insert_ne; [done|].
  intros Heq. apply mat_offset_inj in Heq as [-> ->]; done.
Qed.

Lemma vec_set_all (p q : Vec3b) :
  vec_set (vec_set (vec_set p RED_PIX (vec_get q RED_PIX))
                   GREEN_PIX (vec_get q GREEN_PIX))
          BLUE_PIX (vec_get q BLUE_PIX) = q.
Proof. by destruct p, q. Qed.

Lemma mat_set_put (m : Mat) (i j c : Z) (v : uchar) (p : Vec3b) :
  mat_at m i j = Ok p -> mat_set m i j c v = Ok (mat_put m i j (vec_set p c v)).
Proof. intros Hp. unfold mat_set. by rewrite Hp. Qed.

Lemma mat_put_put (m : Mat) (i j : Z) (p q : Vec3b) :
  mat_put (mat_put m i j p) i j q = mat_put m i j q.
Proof.
  unfold mat_put, mat_offset. simpl. by rewrite list_insert_insert_eq.
Qed.

(** ** The substituter, pixel by pixel *)

Lemma int_rem_pos (a b : Z) : 0 <= a -> 1 <= b -> int_rem a b = Ok (a mod b).
Proof.
  intros Ha Hb. unfold int_rem. destruct (Z.eqb_spec b 0); [lia|].
  by rewrite Z.rem_mod_nonneg by lia.
Qed.

Section Substituter.
Variables (r g b : Z) (replacement : Mat).
Hypothesis replacement_ok : Mat_ok replacement.
Hypothesis replacement_rows : 1 <= rows replacement.
Hypothesis replacement_cols : 1 <= cols replacement.

Lemma replacement_at_tile (i j : Z) :
  0 <= i -> 0 <= j -> replacement_at replacement i j = tile replacement i j.
Proof.
  intros Hi Hj. unfold replacement_at, tile.
  by rewrite !int_rem_pos by lia.
Qed.

Lemma tile_ok (i j : Z) : exists q, tile replacement i j = Ok q.
Proof.
  destruct (mat_at_ok replacement (i mod rows replacement) (j mod cols replacement))
    as (q & _ & Hq); [done| |by exists q].
  apply in_mat_spec.
  split; apply Z.mod_pos_bound; lia.
Qed.

Lemma copy_channel_put (t : Mat) (i j c : Z) (p q : Vec3b) :
  in_mat t i j = true -> mat_at t i j = Ok p -> tile replacement i j = Ok q ->
  copy_channel replacement i j c t = Ok (mat_put t i j (vec_set p c (vec_get q c))).
Proof.
  intros Hin%in_mat_spec Hp Hq. unfold copy_channel.
  rewrite replacement_at_tile, Hq by lia. simpl. by apply mat_set_put.
Qed.

Lemma replace_pixel_put (t : Mat) (i j : Z) (p q : Vec3b) :
  Mat_ok t -> in_mat t i j = true -> mat_at t i j = Ok p -> tile replacement i j = Ok q ->
  replace_pixel r g b replacement i j t
  = Ok (if within_bucket r g b p then mat_put t i j q else t).
Proof.
  intros Hok Hin Hp Hq. unfold replace_pixel. rewrite Hp. simpl.
  destruct (within_bucket r g b p); [|done].
  rewrite (copy_channel_put t i j RED_PIX p q) by done. simpl.
  erewrite (copy_channel_put _ i j GREEN_PIX); [|done|by apply mat_at_put_eq|done].
  simpl. rewrite mat_put_put.
  erewrite (copy_channel_put _ i j BLUE_PIX); [|done|by apply mat_at_put_eq|done].
  by rewrite mat_put_put, vec_set_all.
Qed.

Lemma replace_positions (l : list (Z * Z)) :
  NoDup l ->
  forall t : Mat,
    Mat_ok t ->
    (forall i j, (i, j) ∈ l -> in_mat t i j = true) ->
    exists out,
      for_each l (fun ij t => replace_pixel r g b replacement ij.1 ij.2 t) t = Ok out
      /\ Mat_ok out /\ rows out = rows t /\ cols out = cols t
      /\ forall i j, mat_at out i j = substituted_on r g b replacement l t i j.
Proof.
  induction 1 as [|[i0 j0] l Hnotin Hnodup IH]; intros t Hok Hin.
  - exists t. simpl. split_and!; try done.
    intros i j. unfold substituted_on.
    rewrite bool_decide_eq_false_2 by apply not_elem_of_nil.
    simpl. by destruct (mat_at t i j).
  - assert (Hin0 : in_mat t i0 j0 = true) by (apply Hin; left).
    destruct (mat_at_ok t i0 j0) as (p0 & _ & Hp0); [done..|].
    destruct (tile_ok i0 j0) as [q0 Hq0].
    simpl. rewrite (replace_pixel_put t i0 j0 p0 q0) by done. simpl.
    set (t1 := if within_bucket r g b p0 then mat_put t i0 j0 q0 else t).
    assert (Hok1 : Mat_ok t1).
    { unfold t1. destruct (within_bucket r g b p0); [by apply mat_put_ok|done]. }
    assert (Hdims : rows t1 = rows t /\ cols t1 = cols t).
    { unfold t1. by destruct (within_bucket r g b p0). }
    destruct Hdims as [Hrows Hcols].
    destruct (IH t1 Hok1) as (out & Hrun & Hokout & Hr & Hc & Hat).
    { intros i j Hij. unfold in_mat. rewrite Hrows, Hcols.
      apply Hin. by right. }
    exists out. split_and!; [done|done|congruence|congruence|].
    intros i j. rewrite Hat. unfold substituted_on.
    destruct (decide ((i, j) = (i0, j0))) as [[= -> ->]|Hne].
    + rewrite (bool_decide_eq_false_2 _ Hnotin).
      rewrite (bool_decide_eq_true_2 ((i0, j0) ∈ (i0, j0) :: l)) by left.
      rewrite Hp0. simpl. unfold t1.
      destruct (within_bucket r g b p0).
      * by rewrite mat_at_put_eq, Hq0.
      * by rewrite Hp0.
    + assert (Hsame : mat_at t1 i j = mat_at t i j).
      { unfold t1. destruct (within_bucket r g b p0); [|done].
        apply mat_at_put_ne; [done|congruence]. }
      rewrite Hsame.
      assert (Hmem : bool_decide ((i, j) ∈ (i0, j0) :: l) = bool_decide ((i, j) ∈ l)).
      { apply bool_decide_ext. rewrite elem_of_cons.
        split; [by intros [?|?]|by right]. }
      by rewrite Hmem.
Qed.

Lemma replaceMostCommonColor_spec (t : Mat) :
  Mat_ok t ->
  exists out,
    replaceMostCommonColor r g b t replacement = Ok out
    /\ Mat_ok out /\ rows out = rows t /\ cols out = cols t
    /\ forall i j, mat_at out i j = substituted r g b replacement t i j.
Proof.
  intros Hok. unfold replaceMostCommonColor, for_loop.
  rewrite (for_each_nested _ _ (fun i j t => replace_pixel r g b replacement i j t)).
  destruct (replace_positions (scanned_positions t) (NoDup_scanned_positions t) t Hok)
    as (out & Hrun & Hokout & Hr & Hc & Hat).
  { intros i j Hij. by apply scanned_in_mat, elem_of_scanned_positions. }
  exists out. split_and!; try done.
  intros i j. rewrite Hat. unfold substituted_on, substituted.
  destruct (mat_at t i j); [simpl|done].
  replace (bool_decide ((i, j) ∈ scanned_positions t)) with (scanned t i j); [done|].
  destruct (scanned t i j) eqn:Hs.
  - symmetry. by apply bool_decide_eq_true_2, elem_of_scanned_positions.
  - symmetry. apply bool_decide_eq_false_2.
    rewrite elem_of_scanned_positions. congruence.
Qed.
End Substituter.

Lemma within_bucket_threshold (r g b : Z) (p : Vec3b) :
  within_bucket r g b p = true <-> within_threshold r g b p.
Proof.
  unfold within_bucket, within_threshold.
  rewrite !andb_true_iff, !Z.leb_le, !Z.geb_le. lia.
Qed.

(** ** The histogram builder *)

Lemma BUCKET_SIZE_eq : BUCKET_SIZE = 64.
Proof. reflexivity. Qed.

Lemma uchar_to_int_range (c : uchar) : 0 <= uchar_to_int c < 256.
Proof.
  unfold uchar_to_int. pose proof (Byte.to_N_bounded c). lia.
Qed.

Lemma bucket_of_range (c : uchar) : 0 <= bucket_of c < SIZE.
Proof.
  unfold bucket_of, SIZE. rewrite BUCKET_SIZE_eq.
  pose proof (uchar_to_int_range c).
  rewrite Z.quot_div_nonneg by lia.
  split; [apply Z.div_pos; lia|apply Z.div_lt_upper_bound; lia].
Qed.

Lemma in_bucket_bucket_of (i : Z) (c : uchar) :
  in_bucket i c = true <-> bucket_of c = i.
Proof.
  unfold in_bucket, bucket_of. rewrite BUCKET_SIZE_eq.
  pose proof (uchar_to_int_range c).
  rewrite Z.quot_div_nonneg by lia.
  rewrite andb_true_iff, Z.leb_le, Z.ltb_lt. split.
  - intros Hi. symmetry. apply (Z.div_unique _ _ _ (uchar_to_int c - i * 64)); lia.
  - intros <-. pose proof (Z.div_mod (uchar_to_int c) 64).
    pose proof (Z.mod_pos_bound (uchar_to_int c) 64). lia.
Qed.

Lemma in_grid_spec (i j k : Z) :
  in_grid i j k = true <-> 0 <= i < SIZE /\ 0 <= j < SIZE /\ 0 <= k < SIZE.
Proof. unfold in_grid. rewrite !andb_true_iff. lia. Qed.

Lemma hist_index_inj (i j k i' j' k' : Z) :
  in_grid i j k = true -> in_grid i' j' k' = true ->
  hist_index i j k = hist_index i' j' k' -> i = i' /\ j = j' /\ k = k'.
Proof.
  rewrite !in_grid_spec. unfold hist_index, SIZE. lia.
Qed.

Lemma hist_index_range (i j k : Z) :
  in_grid i j k = true -> 0 <= hist_index i j k < SIZE * SIZE * SIZE.
Proof. rewrite in_grid_spec. unfold hist_index, SIZE. lia. Qed.

Lemma hist_at_ok (hist : list Z) (i j k : Z) :
  hist_ok hist -> in_grid i j k = true ->
  exists c, hist !! Z.to_nat (hist_index i j k) = Some c /\ hist_at hist i j k = Ok c.
Proof.
  intros Hlen Hin.
  destruct (lookup_lt_is_Some_2 hist (Z.to_nat (hist_index i j k))) as [c Hc].
  { rewrite Hlen. pose proof (hist_index_range i j k Hin). lia. }
  exists c. split; [done|]. unfold hist_at. by rewrite Hin, Hc.
Qed.

Lemma hist_zero_ok : hist_ok hist_zero.
Proof. reflexivity. Qed.

Lemma tally_ok (hist : list Z) (p : Vec3b) : hist_ok hist -> hist_ok (tally hist p).
Proof.
  unfold hist_ok, tally. destruct (hist !! cell_index p); [|done].
  by rewrite length_insert.
Qed.

Lemma cell_in_grid (p : Vec3b) :
  in_grid (bucket_of (vec_get p RED_PIX)) (bucket_of (vec_get p GREEN_PIX))
          (bucket_of (vec_get p BLUE_PIX)) = true.
Proof.
  apply in_grid_spec. split_and!; apply bucket_of_range.
Qed.

Lemma hist_incr_tally (hist : list Z) (p : Vec3b) :
  hist_ok hist ->
  hist_incr hist (bucket_of (vec_get p RED_PIX)) (bucket_of (vec_get p GREEN_PIX))
            (bucket_of (vec_get p BLUE_PIX)) = Ok (tally hist p).
Proof.
  intros Hok. unfold hist_incr, tally.
  destruct (hist_at_ok hist _ _ _ Hok (cell_in_grid p)) as (c & Hc & Hat).
  rewrite Hat. simpl. unfold cell_index. by rewrite Hc.
Qed.

Lemma histogram_positions (image : Mat) (l : list (Z * Z)) :
  Mat_ok image ->
  (forall i j, (i, j) ∈ l -> in_mat image i j = true) ->
  forall hist, hist_ok hist ->
    for_each l (fun ij hist =>
      do pr <- mat_at image ij.1 ij.2;
      let r := Z.quot (uchar_to_int (vec_get pr RED_PIX)) BUCKET_SIZE in
      do pg <- mat_at image ij.1 ij.2;
      let g := Z.quot (uchar_to_int (vec_get pg GREEN_PIX)) BUCKET_SIZE in
      do pb <- mat_at image ij.1 ij.2;
      let b := Z.quot (uchar_to_int (vec_get pb BLUE_PIX)) BUCKET_SIZE in
      hist_incr hist r g b) hist
    = Ok (fold_left tally (omap (fun ij => data image !! mat_offset image ij.1 ij.2) l) hist).
Proof.
  intros Hok. induction l as [|[i j] l IH]; intros Hin hist Hhist; [done|].
  destruct (mat_at_ok image i j Hok) as (p & Hp & Hat); [apply Hin; left|].
  cbn [for_each omap list_omap fst snd]. rewrite Hp, Hat. cbn [bind].
  fold (bucket_of (vec_get p RED_PIX)) (bucket_of (vec_get p GREEN_PIX))
       (bucket_of (vec_get p BLUE_PIX)).
  rewrite hist_incr_tally by done. cbn [bind fold_left].
  apply IH; [|by apply tally_ok].
  intros i' j' Hij. apply Hin. by right.
Qed.

Lemma createColorHistogram_fold (image : Mat) :
  Mat_ok image ->
  createColorHistogram image = Ok (fold_left tally (scanned_pixels image) hist_zero).
Proof.
  intros Hok. unfold createColorHistogram, for_loop, scanned_pixels.
  rewrite (for_each_nested _ _ (fun row col hist =>
    do pr <- mat_at image row col;
    let r := Z.quot (uchar_to_int (vec_get pr RED_PIX)) BUCKET_SIZE in
    do pg <- mat_at image row col;
    let g := Z.quot (uchar_to_int (vec_get pg GREEN_PIX)) BUCKET_SIZE in
    do pb <- mat_at image row col;
    let b := Z.quot (uchar_to_int (vec_get pb BLUE_PIX)) BUCKET_SIZE in
    hist_incr hist r g b)).
  apply histogram_positions; [done| |apply hist_zero_ok].
  intros i j Hij. by apply scanned_in_mat, elem_of_scanned_positions.
Qed.

Lemma wrap_int_small (x : Z) : -2147483648 <= x <= INT_MAX -> wrap_int x = x.
Proof.
  unfold wrap_int, INT_MAX. intros Hx. rewrite Z.mod_small; lia.
Qed.

Lemma in_cell_index (i j k : Z) (p : Vec3b) :
  in_grid i j k = true ->
  in_cell i j k p = true <-> cell_index p = Z.to_nat (hist_index i j k).
Proof.
  intros Hin. unfold in_cell, cell_index.
  rewrite !andb_true_iff, !in_bucket_bucket_of.
  pose proof (hist_index_range _ _ _ Hin).
  pose proof (hist_index_range _ _ _ (cell_in_grid p)).
  split.
  - by intros [[-> ->] ->].
  - intros Heq. apply Z2Nat.inj in Heq; [|lia..].
    apply hist_index_inj in Heq; [|apply cell_in_grid|done]. tauto.
Qed.

Lemma count_in_cell_cons (i j k : Z) (p : Vec3b) (ps : list Vec3b) :
  count_in_cell i j k (p :: ps)
  = (if in_cell i j k p then 1 else 0) + count_in_cell i j k ps.
Proof.
  unfold count_in_cell. simpl. destruct (in_cell i j k p); simpl; lia.
Qed.

Lemma tally_step (hist : list Z) (p : Vec3b) (n : nat) :
  hist_ok hist -> room_for (S n) hist ->
  exists c, hist !! cell_index p = Some c
            /\ tally hist p = <[cell_index p := c + 1]> hist
            /\ room_for n (tally hist p).
Proof.
  intros Hok Hroom.
  destruct (hist_at_ok hist _ _ _ Hok (cell_in_grid p)) as (c & Hc & _).
  fold (cell_index p) in Hc. exists c.
  pose proof (Hroom _ _ Hc) as Hb.
  assert (Htally : tally hist p = <[cell_index p := c + 1]> hist).
  { unfold tally. rewrite Hc, wrap_int_small; [done|]. unfold INT_MAX in *. lia. }
  split_and!; [done|done|]. rewrite Htally.
  intros i c' Hi. destruct (decide (cell_index p = i)) as [<-|Hne].
  - rewrite list_lookup_insert_eq in Hi by (by eapply lookup_lt_Some).
    injection Hi as <-. lia.
  - rewrite list_lookup_insert_ne in Hi by done.
    pose proof (Hroom _ _ Hi). lia.
Qed.

Lemma tally_fold_count (ps : list Vec3b) :
  forall hist, hist_ok hist -> room_for (length ps) hist ->
  forall i j k, in_grid i j k = true ->
  exists c, hist !! Z.to_nat (hist_index i j k) = Some c
            /\ fold_left tally ps hist !! Z.to_nat (hist_index i j k)
               = Some (c + count_in_cell i j k ps).
Proof.
  induction ps as [|p ps IH]; intros hist Hok Hroom i j k Hin.
  - destruct (hist_at_ok hist i j k Hok Hin) as (c & Hc & _).
    exists c. split; [done|]. simpl. rewrite Hc. f_equal.
    unfold count_in_cell. simpl. lia.
  - destruct (tally_step hist p (length ps) Hok Hroom) as (c0 & Hc0 & Htally & Hroom').
    destruct (IH (tally hist p) (tally_ok _ _ Hok) Hroom' i j k Hin) as (c' & Hc' & Hfold).
    simpl fold_left. rewrite Hfold, count_in_cell_cons.
    rewrite Htally in Hc'.
    destruct (in_cell i j k p) eqn:Hcell.
    + apply in_cell_index in Hcell; [|done]. rewrite <- Hcell in *.
      rewrite list_lookup_insert_eq in Hc' by (by eapply lookup_lt_Some).
      injection Hc' as <-. exists c0. split; [done|]. f_equal. lia.
    + assert (Hne : cell_index p <> Z.to_nat (hist_index i j k)).
      { intros Heq. apply in_cell_index in Heq; [congruence|done]. }
      rewrite list_lookup_insert_ne in Hc' by done.
      exists c'. split; [done|]. f_equal.
Qed.

Lemma hist_total_insert (hist : list Z) (n : nat) (c d : Z) :
  hist !! n = Some c -> hist_total (<[n := d]> hist) = hist_total hist - c + d.
Proof.
  revert n. induction hist as [|x hist IH]; intros [|n] Hn; try done.
  - injection Hn as ->. simpl. lia.
  - simpl in *. change (foldr Z.add 0 (<[n:=d]> hist)) with (hist_total (<[n:=d]> hist)).
    rewrite (IH n Hn). unfold hist_total. lia.
Qed.

Lemma tally_fold_total (ps : list Vec3b) :
  forall hist, hist_ok hist -> room_for (length ps) hist ->
  hist_total (fold_left tally ps hist) = hist_total hist + Z.of_nat (length ps).
Proof.
  induction ps as [|p ps IH]; intros hist Hok Hroom.
  - simpl. lia.
  - destruct (tally_step hist p (length ps) Hok Hroom) as (c0 & Hc0 & Htally & Hroom').
    simpl fold_left. rewrite (IH _ (tally_ok _ _ Hok) Hroom'), Htally.
    rewrite (hist_total_insert _ _ c0) by done. simpl length. lia.
Qed.

Lemma room_for_zero (n : nat) : Z.of_nat n <= INT_MAX -> room_for n hist_zero.
Proof.
  intros Hn i c Hi. apply lookup_replicate_1 in Hi as [-> _]. lia.
Qed.

Lemma length_positions {I J : Type} (l1 : list I) (l2 : list J) :
  length (positions l1 l2) = (length l1 * length l2)%nat.
Proof.
  induction l1 as [|i l1 IH]; [done|].
  change (positions (i :: l1) l2) with (map (pair i) l2 ++ positions l1 l2).
  rewrite length_app, length_map, IH. simpl. lia.
Qed.

Lemma scanned_pixels_length (m : Mat) :
  Mat_ok m ->
  length (scanned_pixels m) = (Z.to_nat (rows m - 1) * Z.to_nat (cols m - 1))%nat.
Proof.
  intros Hok. unfold scanned_pixels.
  assert (Hall : forall l : list (Z * Z),
    (forall i j, (i, j) ∈ l -> in_mat m i j = true) ->
    length (omap (fun ij => data m !! mat_offset m ij.1 ij.2) l) = length l).
  { induction l as [|[i j] l IH]; intros Hin; [done|].
    destruct (mat_at_ok m i j Hok) as (p & Hp & _); [apply Hin; left|].
    cbn [omap list_omap fst snd]. rewrite Hp. simpl. f_equal.
    apply IH. intros i' j' Hij. apply Hin. by right. }
  rewrite Hall.
  - unfold scanned_positions. by rewrite length_positions, !length_seqZ.
  - intros i j Hij. by apply scanned_in_mat, elem_of_scanned_positions.
Qed.

(** ** The locator *)

Lemma elem_of_grid_cells (i j k : Z) :
  (i, (j, k)) ∈ grid_cells <-> in_grid i j k = true.
Proof.
  unfold grid_cells. rewrite !elem_of_positions, !elem_of_seqZ, in_grid_spec. lia.
Qed.

Lemma hist_at_cell_value (hist : list Z) (i j k v : Z) :
  hist_at hist i j k = Ok v -> v = cell_value hist (i, (j, k)) /\ in_grid i j k = true.
Proof.
  unfold hist_at, cell_value. destruct (in_grid i j k); [|done].
  destruct (hist !! _) eqn:Hc; [|done]. intros [= <-]. split; [|done].
  simpl. by rewrite (list_lookup_total_correct _ _ _ Hc).
Qed.

Lemma hist_at_grid (hist : list Z) (i j k : Z) :
  hist_ok hist -> in_grid i j k = true ->
  hist_at hist i j k = Ok (cell_value hist (i, (j, k))).
Proof.
  intros Hok Hin. destruct (hist_at_ok hist i j k Hok Hin) as (c & Hc & ->).
  unfold cell_value. simpl. by rewrite (list_lookup_total_correct _ _ _ Hc).
Qed.

Lemma scan_cell_step (hist : list Z) (i j k : Z) (s : scan_state) :
  hist_ok hist -> in_grid i j k = true ->
  scan_cell hist i j k s = Ok (scan_step hist s (i, (j, k))).
Proof.
  intros Hok Hin. unfold scan_cell, scan_step.
  rewrite hist_at_grid by done. simpl.
  by destruct (_ >? _).
Qed.

Lemma locator_loops_fold (hist : list Z) (s : scan_state) :
  hist_ok hist ->
  for_loop SIZE (fun i s =>
    for_loop SIZE (fun j s =>
      for_loop SIZE (fun k s => scan_cell hist i j k s) s) s) s
  = Ok (fold_left (scan_step hist) grid_cells s).
Proof.
  intros Hok. unfold for_loop.
  rewrite (for_each_ext _ _ (fun i s =>
    for_each (positions (seqZ 0 SIZE) (seqZ 0 SIZE))
             (fun jk s => scan_cell hist i jk.1 jk.2 s) s)).
  2:{ intros i s' _.
      apply (for_each_nested _ _ (fun j k s => scan_cell hist i j k s)). }
  rewrite (for_each_nested _ _ (fun i jk s => scan_cell hist i jk.1 jk.2 s)).
  fold grid_cells. rewrite <- for_each_pure. apply for_each_ext.
  intros [i [j k]] s' Hin. apply scan_cell_step; [done|].
  by apply elem_of_grid_cells.
Qed.

(** The scan keeps the first cell that beats every cell before it. *)
Lemma scan_fold_first_max (hist : list Z) (l : list (Z * (Z * Z))) :
  forall s0 : scan_state,
    let s := fold_left (scan_step hist) l s0 in
    (s = s0 /\ Forall (fun c => cell_value hist c <= highestValue s0) l)
    \/ (exists l1 l2,
          l = l1 ++ (best_r s, (best_g s, best_b s)) :: l2
          /\ highestValue s = cell_value hist (best_r s, (best_g s, best_b s))
          /\ highestValue s0 < highestValue s
          /\ Forall (fun c => cell_value hist c < highestValue s) l1
          /\ Forall (fun c => cell_value hist c <= highestValue s) l2).
Proof.
  induction l as [|c l IH]; intros s0; simpl.
  - left. by split.
  - destruct (Z.gtb_spec (cell_value hist c) (highestValue s0)) as [Hgt|Hle].
    + assert (Hstep : scan_step hist s0 c
                      = mkScan c.1 c.2.1 c.2.2 (cell_value hist c)).
      { unfold scan_step. destruct (Z.gtb_spec (cell_value hist c) (highestValue s0));
          [done|lia]. }
      rewrite Hstep.
      destruct (IH (mkScan c.1 c.2.1 c.2.2 (cell_value hist c)))
        as [[Hs Hall]|(l1 & l2 & Hl & Hv & Hlt & Hl1 & Hl2)]; right.
      * rewrite Hs. simpl in *. exists [], l. destruct c as [i [j k]]. simpl.
        split_and!; [done|done|lia|constructor|done].
      * simpl in Hlt. exists (c :: l1), l2.
        split_and!; [by rewrite Hl at 1|done|lia| |done].
        constructor; [lia|done].
    + assert (Hstep : scan_step hist s0 c = s0).
      { unfold scan_step. destruct (Z.gtb_spec (cell_value hist c) (highestValue s0));
          [lia|done]. }
      rewrite Hstep.
      destruct (IH s0) as [[Hs Hall]|(l1 & l2 & Hl & Hv & Hlt & Hl1 & Hl2)].
      * left. split; [done|]. constructor; [lia|done].
      * right. exists (c :: l1), l2.
        split_and!; [by rewrite Hl at 1|done|lia| |done].
        constructor; [lia|done].
Qed.

Lemma grid_cells_indices :
  map (fun c : Z * (Z * Z) => hist_index c.1 c.2.1 c.2.2) grid_cells
  = seqZ 0 (SIZE * SIZE * SIZE).
Proof. by vm_compute. Qed.

Lemma seqZ_split_lt (n x : Z) (l1 l2 : list Z) :
  seqZ 0 n = l1 ++ x :: l2 -> forall y, y ∈ l2 -> x < y.
Proof.
  intros Hsplit y Hy. apply list_elem_of_lookup in Hy as [m Hm].
  assert (Hx : seqZ 0 n !! length l1 = Some x).
  { rewrite Hsplit. by rewrite list_lookup_middle. }
  assert (Hy : seqZ 0 n !! (length l1 + S m)%nat = Some y).
  { rewrite Hsplit, lookup_app_r by lia.
    replace (length l1 + S m - length l1)%nat with (S m) by lia. done. }
  apply lookup_seqZ in Hx as [-> _]. apply lookup_seqZ in Hy as [-> _]. lia.
Qed.

(** In [grid_cells] a cell met before [(i, j, k)] stands before it. *)
Lemma grid_cells_before (l1 l2 : list (Z * (Z * Z))) (i j k i' j' k' : Z) :
  grid_cells = l1 ++ (i, (j, k)) :: l2 ->
  in_grid i' j' k' = true -> scan_before i' j' k' i j k ->
  (i', (j', k')) ∈ l1.
Proof.
  intros Hsplit Hin' Hbefore.
  assert (Hin : in_grid i j k = true).
  { apply elem_of_grid_cells. rewrite Hsplit, elem_of_app, elem_of_cons. auto. }
  assert (Hidx : hist_index i' j' k' < hist_index i j k).
  { apply in_grid_spec in Hin, Hin'. unfold scan_before, hist_index, SIZE in *. lia. }
  pose proof Hin' as Hmem. apply elem_of_grid_cells in Hmem.
  rewrite Hsplit in Hmem. apply elem_of_app in Hmem as [Hmem|Hmem]; [done|].
  apply elem_of_cons in Hmem as [Heq|Hmem].
  - injection Heq as -> -> ->. lia.
  - pose proof grid_cells_indices as Hseq. rewrite Hsplit, map_app in Hseq.
    simpl in Hseq. symmetry in Hseq.
    pose proof (seqZ_split_lt _ _ _ _ Hseq (hist_index i' j' k')) as Hlt.
    assert (hist_index i j k < hist_index i' j' k'); [|lia].
    apply Hlt. apply list_elem_of_In, in_map_iff.
    exists (i', (j', k')). split; [done|]. by apply list_elem_of_In.
Qed.

Lemma midpoint_wrap (idx : Z) :
  0 <= idx < SIZE ->
  wrap_int (idx * BUCKET_SIZE + Z.quot BUCKET_SIZE 2) = midpoint idx.
Proof.
  intros Hidx. rewrite BUCKET_SIZE_eq. change (Z.quot 64 2) with 32.
  unfold midpoint. apply wrap_int_small. unfold SIZE, INT_MAX in *. lia.
Qed.

(** The locator, started as [createOverlayImage] starts it (with [r], [g]
    and [b] holding 0), returns the midpoints of the first maximal cell. *)
Lemma locator_result (hist : list Z) :
  hist_ok hist ->
  exists i j k,
    in_grid i j k = true
    /\ findMostCommonColor 0 0 0 hist = Ok (midpoint i, midpoint j, midpoint k)
    /\ first_max hist i j k.
Proof.
  intros Hok. unfold findMostCommonColor.
  rewrite (hist_at_grid hist 0 0 0 Hok) by done. cbn [bind].
  rewrite locator_loops_fold by done. cbn [bind].
  set (s0 := mkScan 0 0 0 (cell_value hist (0, (0, 0)))).
  pose proof (scan_fold_first_max hist grid_cells s0) as Hscan. cbv zeta in Hscan.
  set (s := fold_left (scan_step hist) grid_cells s0) in *.
  assert (Hval : forall i' j' k' v', hist_at hist i' j' k' = Ok v' ->
            v' = cell_value hist (i', (j', k')) /\ (i', (j', k')) ∈ grid_cells).
  { intros i' j' k' v' Hat. apply hist_at_cell_value in Hat as [-> Hin].
    split; [done|]. by apply elem_of_grid_cells. }
  destruct Hscan as [[Hs Hall]|(l1 & l2 & Hl & Hv & Hlt & Hl1 & Hl2)].
  - exists 0, 0, 0. rewrite Hs. simpl. split_and!; [done|done|].
    exists (cell_value hist (0, (0, 0))). split_and!.
    + by apply hist_at_grid.
    + intros i' j' k' v' Hat. apply Hval in Hat as [-> Hin].
      rewrite Forall_forall in Hall. by apply (Hall _ Hin).
    + intros i' j' k' v' Hbefore Hat. apply hist_at_cell_value in Hat as [_ Hin].
      apply in_grid_spec in Hin. unfold scan_before in Hbefore. lia.
  - assert (Hin : in_grid (best_r s) (best_g s) (best_b s) = true).
    { apply elem_of_grid_cells. rewrite Hl, elem_of_app, elem_of_cons. auto. }
    exists (best_r s), (best_g s), (best_b s).
    pose proof Hin as Hrange. apply in_grid_spec in Hrange.
    rewrite !midpoint_wrap by tauto. split_and!; [done|done|].
    exists (highestValue s). rewrite Forall_forall in Hl1, Hl2. split_and!.
    + rewrite Hv. by apply hist_at_grid.
    + intros i' j' k' v' Hat. apply Hval in Hat as [-> Hmem].
      rewrite Hl, elem_of_app, elem_of_cons in Hmem.
      destruct Hmem as [Hmem|[->|Hmem]].
      * apply Hl1 in Hmem. lia.
      * lia.
      * by apply Hl2.
    + intros i' j' k' v' Hbefore Hat. apply hist_at_cell_value in Hat as [-> Hin'].
      apply (Hl1 (i', (j', k'))). by eapply grid_cells_before.
Qed.

Lemma first_max_zero (hist : list Z) (i j k : Z) :
  (forall i' j' k', in_grid i' j' k' = true -> hist_at hist i' j' k' = Ok 0) ->
  first_max hist i j k -> i = 0 /\ j = 0 /\ k = 0.
Proof.
  intros Hzero (v & Hv & _ & Hbefore).
  pose proof (hist_at_cell_value _ _ _ _ _ Hv) as [_ Hin].
  rewrite (Hzero _ _ _ Hin) in Hv. injection Hv as <-.
  destruct (decide (i = 0 /\ j = 0 /\ k = 0)) as [|Hne]; [done|].
  apply in_grid_spec in Hin.
  assert (0 < 0); [|lia].
  apply (Hbefore 0 0 0); [unfold scan_before; lia|by apply Hzero].
Qed.

(** X3. The in-out parameters are written only when a cell beats cell (0,0,0):
    otherwise the result is computed from the values the caller passed, which
    [createOverlayImage] sets to 0. *)
Lemma locator_keeps_caller_values (r g b : Z) (hist : list Z) :
  hist_ok hist ->
  (forall i j k v, hist_at hist i j k = Ok v -> v <= cell_value hist (0, (0, 0))) ->
  findMostCommonColor r g b hist
  = Ok (wrap_int (r * BUCKET_SIZE + Z.quot BUCKET_SIZE 2),
        wrap_int (g * BUCKET_SIZE + Z.quot BUCKET_SIZE 2),
        wrap_int (b * BUCKET_SIZE + Z.quot BUCKET_SIZE 2)).
Proof.
  intros Hok Hmax. unfold findMostCommonColor.
  rewrite (hist_at_grid hist 0 0 0 Hok) by done. cbn [bind].
  rewrite locator_loops_fold by done. cbn [bind].
  set (s0 := mkScan r g b (cell_value hist (0, (0, 0)))).
  pose proof (scan_fold_first_max hist grid_cells s0) as Hscan. cbv zeta in Hscan.
  set (s := fold_left (scan_step hist) grid_cells s0) in *.
  destruct Hscan as [[-> _]|(l1 & l2 & Hl & Hv & Hlt & _)]; [done|].
  assert (Hin : in_grid (best_r s) (best_g s) (best_b s) = true).
  { apply elem_of_grid_cells. rewrite Hl, elem_of_app, elem_of_cons. auto. }
  pose proof (Hmax _ _ _ _ (hist_at_grid hist _ _ _ Hok Hin)) as Hle.
  simpl in Hlt. lia.
Qed.

Example locator_caller_values : findMostCommonColor 1 2 3 hist_zero = Ok (96, 160, 224).
Proof. reflexivity. Qed.

(** C4. For every histogram (a 4x4x4 matrix of counts) the locator, called
    as the composition calls it, returns on each channel [idx*64+32] with
    [idx] in [0,4), hence a value in [0,256), where the three indices are the
    first cell in scan order (red outermost, then green, then blue) that
    attains the largest count: every cell holds at most that count and every
    cell met earlier holds strictly less. On an all-zero histogram the result
    is (32,32,32), the midpoint of cell (0,0,0). *)
Theorem locator_first_max_midpoint (hist : list Z) :
  hist_ok hist ->
  (exists i j k,
      findMostCommonColor 0 0 0 hist = Ok (i * 64 + 32, j * 64 + 32, k * 64 + 32)
      /\ (0 <= i < 4 /\ 0 <= j < 4 /\ 0 <= k < 4)
      /\ (0 <= i * 64 + 32 < 256 /\ 0 <= j * 64 + 32 < 256 /\ 0 <= k * 64 + 32 < 256)
      /\ first_max hist i j k)
  /\ ((forall i j k, in_grid i j k = true -> hist_at hist i j k = Ok 0) ->
      findMostCommonColor 0 0 0 hist = Ok (32, 32, 32)).
Proof.
  intros Hok. destruct (locator_result hist Hok) as (i & j & k & Hin & Hres & Hmax).
  pose proof Hin as Hrange. apply in_grid_spec in Hrange. unfold SIZE in Hrange.
  split.
  - exists i, j, k. unfold midpoint in Hres. split_and!; try done; lia.
  - intros Hzero. destruct (first_max_zero hist i j k Hzero Hmax) as (-> & -> & ->).
    exact Hres.
Qed.

Lemma hist_zero_cells (i j k : Z) :
  in_grid i j k = true -> hist_at hist_zero i j k = Ok 0.
Proof.
  intros Hin. destruct (hist_at_ok hist_zero i j k hist_zero_ok Hin) as (c & Hc & ->).
  apply lookup_replicate_1 in Hc as [-> _]. done.
Qed.

Lemma locator_first_max_midpoint_witness :
  hist_ok hist_tie
  /\ ((exists i j k,
         findMostCommonColor 0 0 0 hist_tie = Ok (i * 64 + 32, j * 64 + 32, k * 64 + 32)
         /\ (0 <= i < 4 /\ 0 <= j < 4 /\ 0 <= k < 4)
         /\ (0 <= i * 64 + 32 < 256 /\ 0 <= j * 64 + 32 < 256 /\ 0 <= k * 64 + 32 < 256)
         /\ first_max hist_tie i j k)
      /\ ((forall i j k, in_grid i j k = true -> hist_at hist_tie i j k = Ok 0) ->
          findMostCommonColor 0 0 0 hist_tie = Ok (32, 32, 32))).
Proof.
  split; [reflexivity|].
  apply (locator_first_max_midpoint hist_tie). reflexivity.
Defined.

(** The tie of [hist_tie] goes to the cell met first. *)
Example locator_tie : findMostCommonColor 0 0 0 hist_tie = Ok (96, 160, 224).
Proof. reflexivity. Qed.

(** ** The histogram: counts and total *)

Lemma tally_fold_ok (ps : list Vec3b) (hist : list Z) :
  hist_ok hist -> hist_ok (fold_left tally ps hist).
Proof.
  revert hist. induction ps as [|p ps IH]; intros hist Hok; [done|].
  simpl. by apply IH, tally_ok.
Qed.

Lemma createColorHistogram_ok (image : Mat) :
  Mat_ok image ->
  exists hist, createColorHistogram image = Ok hist /\ hist_ok hist.
Proof.
  intros Hok. eexists. split; [by apply createColorHistogram_fold|].
  apply tally_fold_ok, hist_zero_ok.
Qed.

(** C2. For every image the builder returns a histogram of 4*4*4 cells whose
    cell (i,j,k) is the number of scanned pixels with red in
    [i*64, (i+1)*64), green in [j*64, (j+1)*64) and blue in
    [k*64, (k+1)*64); a cell that counts no pixel is zero. The cells are
    32-bit counters: the statement is for scans of at most [INT_MAX] pixels. *)
Theorem histogram_counts (image : Mat) :
  Mat_ok image ->
  Z.of_nat (length (scanned_pixels image)) <= INT_MAX ->
  exists hist,
    createColorHistogram image = Ok hist
    /\ length hist = Z.to_nat (4 * 4 * 4)
    /\ (forall i j k, in_grid i j k = true ->
          hist_at hist i j k = Ok (count_in_cell i j k (scanned_pixels image)))
    /\ (forall i j k, in_grid i j k = true ->
          count_in_cell i j k (scanned_pixels image) = 0 -> hist_at hist i j k = Ok 0).
Proof.
  intros Hok Hfit.
  assert (Hcells : forall i j k, in_grid i j k = true ->
    hist_at (fold_left tally (scanned_pixels image) hist_zero) i j k
    = Ok (count_in_cell i j k (scanned_pixels image))).
  { intros i j k Hin.
    destruct (tally_fold_count (scanned_pixels image) hist_zero hist_zero_ok
                (room_for_zero _ Hfit) i j k Hin) as (c & Hc & Hfold).
    apply lookup_replicate_1 in Hc as [-> _].
    unfold hist_at. by rewrite Hin, Hfold. }
  exists (fold_left tally (scanned_pixels image) hist_zero).
  split_and!.
  - by apply createColorHistogram_fold.
  - apply tally_fold_ok, hist_zero_ok.
  - exact Hcells.
  - intros i j k Hin Hnone. by rewrite Hcells, Hnone.
Qed.

Lemma image_2x2_ok : Mat_ok image_2x2.
Proof. unfold Mat_ok. simpl. lia. Defined.

Lemma histogram_counts_witness :
  Mat_ok image_2x2
  /\ Z.of_nat (length (scanned_pixels image_2x2)) <= INT_MAX
  /\ exists hist,
      createColorHistogram image_2x2 = Ok hist
      /\ length hist = Z.to_nat (4 * 4 * 4)
      /\ (forall i j k, in_grid i j k = true ->
            hist_at hist i j k = Ok (count_in_cell i j k (scanned_pixels image_2x2)))
      /\ (forall i j k, in_grid i j k = true ->
            count_in_cell i j k (scanned_pixels image_2x2) = 0 ->
            hist_at hist i j k = Ok 0).
Proof.
  split; [exact image_2x2_ok|]. split; [by vm_compute|].
  apply (histogram_counts image_2x2); [exact image_2x2_ok|by vm_compute].
Defined.

(** X2. The total of the histogram is the number of scanned pixels, which is
    [(rows - 1) * (cols - 1)] for an image with at least one row and one
    column. *)
Lemma histogram_total_scanned (image : Mat) :
  Mat_ok image ->
  Z.of_nat (length (scanned_pixels image)) <= INT_MAX ->
  exists hist,
    createColorHistogram image = Ok hist
    /\ hist_total hist = Z.of_nat (length (scanned_pixels image))
    /\ (1 <= rows image -> 1 <= cols image ->
        hist_total hist = (rows image - 1) * (cols image - 1)).
Proof.
  intros Hok Hfit. eexists. split; [by apply createColorHistogram_fold|].
  rewrite tally_fold_total by (apply hist_zero_ok || by apply room_for_zero).
  split; [done|]. intros Hr Hc.
  rewrite scanned_pixels_length by done.
  change (hist_total hist_zero) with 0. nia.
Qed.

(** C3, at the 2x2 image of the specification's example: the image has four
    pixels, the cells of its histogram sum to one. *)
Theorem histogram_total_2x2 :
  exists hist,
    createColorHistogram image_2x2 = Ok hist
    /\ hist_total hist = 1
    /\ rows image_2x2 * cols image_2x2 = 4
    /\ Z.of_nat (length (data image_2x2)) = 4.
Proof. exists (<[0%nat := 1]> hist_zero). repeat split; vm_compute; reflexivity. Qed.

(** C6, the example of the specification run on the code: the builder counts
    the pixel at (0,0) alone, so cell (0,0,0) holds 1 (not 3) and cell
    (3,3,3) holds 0 (not 1); the dominant colour is (32,32,32) all the same. *)
Theorem histogram_example_2x2 :
  exists hist,
    createColorHistogram image_2x2 = Ok hist
    /\ hist_at hist 0 0 0 = Ok 1
    /\ hist_at hist 3 3 3 = Ok 0
    /\ findMostCommonColor 0 0 0 hist = Ok (32, 32, 32).
Proof. exists (<[0%nat := 1]> hist_zero). repeat split; vm_compute; reflexivity. Qed.

(** ** The substituter: faults *)

Lemma bind_fault {A B : Type} (m : result A) (k : A -> result B) (f : fault) :
  m <> Undefined f -> (forall a, m = Ok a -> k a <> Undefined f) ->
  bind m k <> Undefined f.
Proof. destruct m; simpl; [intros _ Hk; by apply Hk|congruence]. Qed.

Lemma for_each_fault {I S : Type} (l : list I) (body : I -> S -> result S) (f : fault) :
  (forall i s, i ∈ l -> body i s <> Undefined f) ->
  forall s, for_each l body s <> Undefined f.
Proof.
  induction l as [|i l IH]; intros Hbody s; simpl; [done|].
  apply bind_fault; [apply Hbody; left|].
  intros s' _. apply IH. intros i' s'' Hi'. apply Hbody. by right.
Qed.

Lemma mat_at_fault (m : Mat) (i j : Z) : mat_at m i j <> Undefined DivideByZero.
Proof.
  unfold mat_at. destruct (in_mat m i j); [|done]. by destruct (data m !! _).
Qed.

Lemma mat_set_fault (m : Mat) (i j c : Z) (v : uchar) :
  mat_set m i j c v <> Undefined DivideByZero.
Proof. unfold mat_set. apply bind_fault; [apply mat_at_fault|done]. Qed.

Lemma replace_pixel_fault (r g b : Z) (replacement : Mat) (i j : Z) (t : Mat) :
  1 <= rows replacement -> 1 <= cols replacement ->
  replace_pixel r g b replacement i j t <> Undefined DivideByZero.
Proof.
  intros Hrows Hcols.
  assert (Hcopy : forall c t', copy_channel replacement i j c t' <> Undefined DivideByZero).
  { intros c t'. unfold copy_channel, replacement_at, int_rem.
    destruct (Z.eqb_spec (rows replacement) 0); [lia|].
    destruct (Z.eqb_spec (cols replacement) 0); [lia|]. simpl.
    apply bind_fault; [apply mat_at_fault|]. intros q _. apply mat_set_fault. }
  unfold replace_pixel. apply bind_fault; [apply mat_at_fault|].
  intros p _. destruct (within_bucket r g b p); [|done].
  apply bind_fault; [apply Hcopy|]. intros t1 _.
  apply bind_fault; [apply Hcopy|]. intros t2 _. apply Hcopy.
Qed.

Lemma replacement_at_zero (replacement : Mat) (i j : Z) :
  rows replacement = 0 \/ cols replacement = 0 ->
  replacement_at replacement i j = Undefined DivideByZero.
Proof.
  intros Hzero. unfold replacement_at, int_rem.
  destruct (Z.eqb_spec (rows replacement) 0); [done|].
  destruct (Z.eqb_spec (cols replacement) 0); [done|lia].
Qed.

(** Without pixels to tile, the first scanned pixel within the threshold
    stops the substituter on a remainder by zero. *)
Lemma replace_positions_zero (r g b : Z) (replacement t : Mat) (l : list (Z * Z)) :
  Mat_ok t ->
  rows replacement = 0 \/ cols replacement = 0 ->
  (forall i j, (i, j) ∈ l -> in_mat t i j = true) ->
  (exists i j p, (i, j) ∈ l /\ mat_at t i j = Ok p /\ within_bucket r g b p = true) ->
  for_each l (fun ij t => replace_pixel r g b replacement ij.1 ij.2 t) t
  = Undefined DivideByZero.
Proof.
  intros Hok Hzero. induction l as [|[i0 j0] l IH]; intros Hin (i & j & p & Hmem & Hp & Hw).
  - by apply not_elem_of_nil in Hmem.
  - destruct (mat_at_ok t i0 j0 Hok) as (p0 & _ & Hp0); [apply Hin; left|].
    simpl. unfold replace_pixel at 1. rewrite Hp0. simpl.
    destruct (within_bucket r g b p0) eqn:Hw0.
    + unfold copy_channel at 1. by rewrite replacement_at_zero.
    + simpl. apply IH; [intros i' j' Hij; apply Hin; by right|].
      apply elem_of_cons in Hmem as [[= -> ->]|Hmem]; [congruence|].
      by exists i, j, p.
Qed.

(** C9. When the replacement has at least one row and one column no
    remainder of the substituter has a zero divisor: the substituter never
    stops on a division or remainder by zero. The code has no guard of its
    own: when the replacement has no row or no column, a scanned target pixel
    within the threshold makes it take a remainder by zero. *)
Theorem substituter_remainder_by_zero (r g b : Z) (target replacement : Mat) :
  (1 <= rows replacement -> 1 <= cols replacement ->
   replaceMostCommonColor r g b target replacement <> Undefined DivideByZero)
  /\ (Mat_ok target ->
      rows replacement = 0 \/ cols replacement = 0 ->
      (exists i j p, scanned target i j = true /\ mat_at target i j = Ok p
                     /\ within_threshold r g b p) ->
      replaceMostCommonColor r g b target replacement = Undefined DivideByZero).
Proof.
  split.
  - intros Hrows Hcols. unfold replaceMostCommonColor, for_loop.
    apply for_each_fault. intros i t _. apply for_each_fault.
    intros j t' _. by apply replace_pixel_fault.
  - intros Hok Hzero (i & j & p & Hs & Hp & Hw).
    unfold replaceMostCommonColor, for_loop.
    rewrite (for_each_nested _ _ (fun i j t => replace_pixel r g b replacement i j t)).
    apply replace_positions_zero; [done|done| |].
    + intros i' j' Hij. by apply scanned_in_mat, elem_of_scanned_positions.
    + exists i, j, p. split_and!; [|done|by apply within_bucket_threshold].
      by apply elem_of_scanned_positions.
Qed.

Lemma target_3x3_ok : Mat_ok target_3x3.
Proof. unfold Mat_ok. simpl. lia. Defined.

Lemma replacement_1x1_ok : Mat_ok replacement_1x1.
Proof. unfold Mat_ok. simpl. lia. Defined.

Lemma within_threshold_10 : within_threshold 32 32 32 (px 10 10 10).
Proof. apply within_bucket_threshold. reflexivity. Defined.

Lemma substituter_remainder_by_zero_witness :
  (1 <= rows replacement_1x1 /\ 1 <= cols replacement_1x1
   /\ replaceMostCommonColor 32 32 32 target_3x3 replacement_1x1
      <> Undefined DivideByZero)
  /\ (Mat_ok target_3x3 /\ rows replacement_0x0 = 0
      /\ replaceMostCommonColor 32 32 32 target_3x3 replacement_0x0
         = Undefined DivideByZero).
Proof.
  split.
  - split; [simpl; lia|]. split; [simpl; lia|].
    apply (proj1 (substituter_remainder_by_zero 32 32 32 target_3x3 replacement_1x1));
      simpl; lia.
  - split; [exact target_3x3_ok|]. split; [reflexivity|].
    apply (proj2 (substituter_remainder_by_zero 32 32 32 target_3x3 replacement_0x0)).
    + exact target_3x3_ok.
    + left. reflexivity.
    + exists 0, 0, (px 10 10 10). split; [reflexivity|]. split; [reflexivity|].
      exact within_threshold_10.
Defined.

(** ** The substituter: what is replaced and what is kept *)

(** X1. What the code does for the pixels it scans: a scanned pixel within the
    threshold becomes the replacement pixel at the wrapped position. *)
Lemma substituter_replaces_scanned (r g b : Z) (target replacement : Mat) :
  Mat_ok target -> Mat_ok replacement ->
  1 <= rows replacement -> 1 <= cols replacement ->
  exists out,
    replaceMostCommonColor r g b target replacement = Ok out
    /\ forall i j p,
         scanned target i j = true -> mat_at target i j = Ok p ->
         within_threshold r g b p ->
         mat_at out i j
         = mat_at replacement (i mod rows replacement) (j mod cols replacement).
Proof.
  intros Ht Hrep Hrows Hcols.
  destruct (replaceMostCommonColor_spec r g b replacement Hrep Hrows Hcols target Ht)
    as (out & Hrun & _ & _ & _ & Hat).
  exists out. split; [done|]. intros i j p Hs Hp Hw%within_bucket_threshold.
  rewrite Hat. unfold substituted. rewrite Hp. simpl. by rewrite Hs, Hw.
Qed.

(** C1, at the 3x3 example of the specification: every pixel of the target
    is within the threshold of (32,32,32), yet the pixel at (2,2) (as every
    pixel of the last row and of the last column) is not replaced by the
    replacement pixel at (2 mod 1, 2 mod 1). *)
Theorem substituter_keeps_last_row_column_3x3 :
  exists out,
    replaceMostCommonColor 32 32 32 target_3x3 replacement_1x1 = Ok out
    /\ mat_at target_3x3 2 2 = Ok (px 10 10 10)
    /\ within_threshold 32 32 32 (px 10 10 10)
    /\ mat_at replacement_1x1 (2 mod 1) (2 mod 1) = Ok (px 5 5 5)
    /\ mat_at out 2 2 = Ok (px 10 10 10)
    /\ mat_at out 0 2 = Ok (px 10 10 10)
    /\ mat_at out 2 0 = Ok (px 10 10 10)
    /\ mat_at out 0 0 = Ok (px 5 5 5).
Proof.
  exists (mkMat 3 3 [px 5 5 5; px 5 5 5; px 10 10 10;
                     px 5 5 5; px 5 5 5; px 10 10 10;
                     px 10 10 10; px 10 10 10; px 10 10 10]).
  split_and!; try (vm_compute; reflexivity).
  exact within_threshold_10.
Qed.

Lemma createOverlayImage_spec (foreground background : Mat) :
  Mat_ok foreground -> Mat_ok background ->
  1 <= rows background -> 1 <= cols background ->
  exists hist i j k out,
    createColorHistogram foreground = Ok hist
    /\ findMostCommonColor 0 0 0 hist = Ok (midpoint i, midpoint j, midpoint k)
    /\ replaceMostCommonColor (midpoint i) (midpoint j) (midpoint k)
                              foreground background = Ok out
    /\ createOverlayImage foreground background = Ok out.
Proof.
  intros Hfg Hbg Hrows Hcols.
  destruct (createColorHistogram_ok foreground Hfg) as (hist & Hhist & Hok).
  destruct (locator_result hist Hok) as (i & j & k & _ & Hloc & _).
  destruct (replaceMostCommonColor_spec (midpoint i) (midpoint j) (midpoint k)
              background Hbg Hrows Hcols foreground Hfg) as (out & Hrun & _).
  exists hist, i, j, k, out. split_and!; try done.
  unfold createOverlayImage. rewrite Hhist. cbn [bind]. rewrite Hloc. cbn [bind].
  exact Hrun.
Qed.

(** C5. A target pixel that is not within the threshold of the dominant
    colour on every channel keeps its three channel values through the
    substitution, and the image the composition returns has the dimensions
    of the foreground. *)
Theorem substituter_frame (r g b : Z) (target replacement : Mat) :
  Mat_ok target -> Mat_ok replacement ->
  1 <= rows replacement -> 1 <= cols replacement ->
  (exists out,
      replaceMostCommonColor r g b target replacement = Ok out
      /\ forall i j p,
           mat_at target i j = Ok p -> ~ within_threshold r g b p ->
           mat_at out i j = Ok p)
  /\ (exists overlay,
        createOverlayImage target replacement = Ok overlay
        /\ rows overlay = rows target /\ cols overlay = cols target
        /\ length (data overlay) = length (data target)).
Proof.
  intros Ht Hrep Hrows Hcols. split.
  - destruct (replaceMostCommonColor_spec r g b replacement Hrep Hrows Hcols target Ht)
      as (out & Hrun & _ & _ & _ & Hat).
    exists out. split; [done|]. intros i j p Hp Hw.
    rewrite Hat. unfold substituted. rewrite Hp. simpl.
    destruct (within_bucket r g b p) eqn:Hwb.
    + by apply within_bucket_threshold in Hwb.
    + by rewrite andb_false_r.
  - destruct (createOverlayImage_spec target replacement Ht Hrep Hrows Hcols)
      as (hist & i & j & k & overlay & _ & _ & Hrun & Hoverlay).
    destruct (replaceMostCommonColor_spec (midpoint i) (midpoint j) (midpoint k)
                replacement Hrep Hrows Hcols target Ht)
      as (out & Hrun' & Hok & Hr & Hc & _).
    rewrite Hrun in Hrun'. injection Hrun' as <-.
    exists overlay. split_and!; try done.
    destruct Ht as (_ & _ & Hlen), Hok as (_ & _ & Hlen'). nia.
Qed.

Lemma substituter_frame_witness :
  Mat_ok target_3x3 /\ Mat_ok replacement_1x1
  /\ 1 <= rows replacement_1x1 /\ 1 <= cols replacement_1x1
  /\ (exists out,
        replaceMostCommonColor 200 200 200 target_3x3 replacement_1x1 = Ok out
        /\ forall i j p,
             mat_at target_3x3 i j = Ok p -> ~ within_threshold 200 200 200 p ->
             mat_at out i j = Ok p)
  /\ (exists overlay,
        createOverlayImage target_3x3 replacement_1x1 = Ok overlay
        /\ rows overlay = rows target_3x3 /\ cols overlay = cols target_3x3
        /\ length (data overlay) = length (data target_3x3)).
Proof.
  split; [exact target_3x3_ok|]. split; [exact replacement_1x1_ok|].
  split; [simpl; lia|]. split; [simpl; lia|].
  apply (substituter_frame 200 200 200 target_3x3 replacement_1x1).
  - exact target_3x3_ok.
  - exact replacement_1x1_ok.
  - simpl. lia.
  - simpl. lia.
Defined.

(** ** The last row and the last column *)

Lemma mat_at_lookup (m : Mat) (i j : Z) :
  Mat_ok m -> in_mat m i j = true ->
  forall p, mat_at m i j = Ok p <-> data m !! mat_offset m i j = Some p.
Proof.
  intros Hok Hin p. destruct (mat_at_ok m i j Hok Hin) as (q & Hq & Hat).
  rewrite Hq, Hat. split; congruence.
Qed.

Lemma scanned_pixels_agree (image image' : Mat) :
  Mat_ok image -> Mat_ok image' ->
  rows image = rows image' -> cols image = cols image' ->
  (forall i j, scanned image i j = true -> mat_at image i j = mat_at image' i j) ->
  scanned_pixels image = scanned_pixels image'.
Proof.
  intros Hok Hok' Hrows Hcols Hagree. unfold scanned_pixels, scanned_positions.
  rewrite <- Hrows, <- Hcols. fold (scanned_positions image).
  assert (Hall : forall l : list (Z * Z),
    (forall i j, (i, j) ∈ l -> scanned image i j = true) ->
    omap (fun ij => data image !! mat_offset image ij.1 ij.2) l
    = omap (fun ij => data image' !! mat_offset image' ij.1 ij.2) l).
  { induction l as [|[i j] l IH]; intros Hl; [done|].
    assert (Hs : scanned image i j = true) by (apply Hl; left).
    pose proof (scanned_in_mat _ _ _ Hs) as Hin.
    assert (Hin' : in_mat image' i j = true).
    { unfold in_mat. rewrite <- Hrows, <- Hcols. exact Hin. }
    destruct (mat_at_ok image i j Hok Hin) as (p & Hp & Hat).
    rewrite (Hagree i j Hs) in Hat. apply mat_at_lookup in Hat; [|done..].
    cbn [omap list_omap fst snd]. rewrite Hp, Hat. f_equal.
    apply IH. intros i' j' Hij. apply Hl. by right. }
  apply Hall. intros i j Hij. by apply elem_of_scanned_positions.
Qed.

(** C7. Both routines run their row index below [rows - 1] and their column
    index below [cols - 1]: the histogram of an image does not depend on the
    pixels of its last row and of its last column (two images that agree
    everywhere else have the same histogram), and the substituter leaves
    every pixel of the last row and of the last column as it was. *)
Theorem last_row_column_never_scanned :
  (forall image image' : Mat,
      Mat_ok image -> Mat_ok image' ->
      rows image = rows image' -> cols image = cols image' ->
      (forall i j, 0 <= i < rows image - 1 -> 0 <= j < cols image - 1 ->
                   mat_at image i j = mat_at image' i j) ->
      exists hist, createColorHistogram image = Ok hist
                   /\ createColorHistogram image' = Ok hist)
  /\ (forall (r g b : Z) (target replacement : Mat),
        Mat_ok target -> Mat_ok replacement ->
        1 <= rows replacement -> 1 <= cols replacement ->
        exists out,
          replaceMostCommonColor r g b target replacement = Ok out
          /\ forall i j, i = rows target - 1 \/ j = cols target - 1 ->
                         mat_at out i j = mat_at target i j).
Proof.
  split.
  - intros image image' Hok Hok' Hrows Hcols Hagree.
    exists (fold_left tally (scanned_pixels image) hist_zero).
    split; [by apply createColorHistogram_fold|].
    rewrite (scanned_pixels_agree image image') by
      (try done; intros i j Hs; unfold scanned in Hs;
       rewrite !andb_true_iff in Hs; apply Hagree; lia).
    by apply createColorHistogram_fold.
  - intros r g b target replacement Ht Hrep Hrows Hcols.
    destruct (replaceMostCommonColor_spec r g b replacement Hrep Hrows Hcols target Ht)
      as (out & Hrun & _ & _ & _ & Hat).
    exists out. split; [done|]. intros i j Hlast.
    rewrite Hat. unfold substituted.
    assert (Hs : scanned target i j = false).
    { unfold scanned. rewrite !andb_false_iff, !Z.ltb_ge. lia. }
    rewrite Hs. simpl. by destruct (mat_at target i j).
Qed.

Lemma image_2x2_border_ok : Mat_ok image_2x2_border.
Proof. unfold Mat_ok. simpl. lia. Defined.

Lemma last_row_column_never_scanned_witness :
  (Mat_ok image_2x2 /\ Mat_ok image_2x2_border
   /\ exists hist, createColorHistogram image_2x2 = Ok hist
                   /\ createColorHistogram image_2x2_border = Ok hist)
  /\ (Mat_ok target_3x3 /\ Mat_ok replacement_1x1
      /\ exists out,
          replaceMostCommonColor 32 32 32 target_3x3 replacement_1x1 = Ok out
          /\ forall i j, i = rows target_3x3 - 1 \/ j = cols target_3x3 - 1 ->
                         mat_at out i j = mat_at target_3x3 i j).
Proof.
  split.
  - split; [exact image_2x2_ok|]. split; [exact image_2x2_border_ok|].
    apply (proj1 last_row_column_never_scanned image_2x2 image_2x2_border).
    + exact image_2x2_ok.
    + exact image_2x2_border_ok.
    + reflexivity.
    + reflexivity.
    + simpl. intros i j Hi Hj.
      assert (i = 0) as -> by lia. assert (j = 0) as -> by lia. reflexivity.
  - split; [exact target_3x3_ok|]. split; [exact replacement_1x1_ok|].
    apply (proj2 last_row_column_never_scanned 32 32 32 target_3x3 replacement_1x1).
    + exact target_3x3_ok.
    + exact replacement_1x1_ok.
    + simpl. lia.
    + simpl. lia.
Defined.

(** ** Idempotence *)

Lemma mat_ext (m m' : Mat) :
  Mat_ok m -> Mat_ok m' -> rows m = rows m' -> cols m = cols m' ->
  (forall i j, in_mat m i j = true -> mat_at m i j = mat_at m' i j) ->
  m = m'.
Proof.
  intros Hok Hok' Hrows Hcols Hagree.
  assert (Hlen : length (data m) = length (data m')).
  { destruct Hok as (_ & _ & Hl), Hok' as (_ & _ & Hl'). nia. }
  destruct m as [rs cs d], m' as [rs' cs' d']. simpl in *. subst rs' cs'.
  f_equal. apply list_eq. intros n.
  destruct (decide (n < length d)%nat) as [Hn|Hn].
  - destruct Hok as (Hrs & Hcs & Hl). simpl in *.
    assert (Hpos : 0 < cs) by nia.
    set (i := Z.of_nat n / cs). set (j := Z.of_nat n mod cs).
    assert (Hdiv : Z.of_nat n = cs * i + j) by apply Z.div_mod, Z.neq_sym, Z.lt_neq, Hpos.
    assert (Hj : 0 <= j < cs) by (apply Z.mod_pos_bound; lia).
    assert (Hi : 0 <= i < rs).
    { split; [apply Z.div_pos; lia|apply Z.div_lt_upper_bound; nia]. }
    assert (Hin : in_mat (mkMat rs cs d) i j = true) by (apply in_mat_spec; simpl; lia).
    assert (Hoff : mat_offset (mkMat rs cs d) i j = n).
    { unfold mat_offset. simpl. apply Nat2Z.inj. rewrite Z2Nat.id by nia. lia. }
    destruct (mat_at_ok (mkMat rs cs d) i j (conj Hrs (conj Hcs Hl)) Hin)
      as (p & Hp & Hat).
    rewrite (Hagree i j Hin) in Hat.
    apply (mat_at_lookup (mkMat rs cs d') i j Hok' Hin) in Hat.
    rewrite Hoff in Hp. change (mat_offset (mkMat rs cs d') i j) with
      (mat_offset (mkMat rs cs d) i j) in Hat. rewrite Hoff in Hat.
    simpl in *. congruence.
  - rewrite !lookup_ge_None_2; [done|lia|lia].
Qed.

(** C8. When no pixel of the replacement is within the threshold of the
    dominant colour, substituting again with the same colour and the same
    replacement returns the substituted image unchanged. *)
Theorem substituter_idempotent (r g b : Z) (target replacement : Mat) :
  Mat_ok target -> Mat_ok replacement ->
  1 <= rows replacement -> 1 <= cols replacement ->
  (forall q, q ∈ data replacement -> ~ within_threshold r g b q) ->
  exists out,
    replaceMostCommonColor r g b target replacement = Ok out
    /\ replaceMostCommonColor r g b out replacement = Ok out.
Proof.
  intros Ht Hrep Hrows Hcols Hfar.
  destruct (replaceMostCommonColor_spec r g b replacement Hrep Hrows Hcols target Ht)
    as (out & Hrun & Hok & Hr & Hc & Hat).
  destruct (replaceMostCommonColor_spec r g b replacement Hrep Hrows Hcols out Hok)
    as (out2 & Hrun2 & Hok2 & Hr2 & Hc2 & Hat2).
  exists out. split; [done|]. rewrite Hrun2. f_equal.
  symmetry. apply mat_ext; [done|done|congruence|congruence|].
  intros i j Hin. rewrite Hat2. unfold substituted at 1.
  assert (Hscan : scanned out i j = scanned target i j).
  { unfold scanned. by rewrite Hr, Hc. }
  rewrite Hscan, Hat. unfold substituted.
  destruct (mat_at target i j) as [p|] eqn:Hp; [simpl|done].
  destruct (scanned target i j && within_bucket r g b p) eqn:Hcond; simpl.
  - destruct (tile replacement i j) as [q|] eqn:Hq; [simpl|done].
    assert (Hwq : within_bucket r g b q = false).
    { apply not_true_is_false. intros Hw%within_bucket_threshold.
      apply (Hfar q); [|done]. by eapply mat_at_elem_of. }
    by rewrite Hwq, andb_false_r.
  - by rewrite Hcond.
Qed.

Lemma replacement_2x1_ok : Mat_ok replacement_2x1.
Proof. unfold Mat_ok. simpl. lia. Defined.

Lemma replacement_2x1_far (q : Vec3b) :
  q ∈ data replacement_2x1 -> ~ within_threshold 32 32 32 q.
Proof.
  intros Hq Hw. apply within_bucket_threshold in Hw.
  simpl in Hq. apply elem_of_cons in Hq as [->|Hq]; [discriminate Hw|].
  apply elem_of_cons in Hq as [->|Hq]; [discriminate Hw|].
  by apply not_elem_of_nil in Hq.
Defined.

Lemma substituter_idempotent_witness :
  Mat_ok target_3x3 /\ Mat_ok replacement_2x1
  /\ 1 <= rows replacement_2x1 /\ 1 <= cols replacement_2x1
  /\ (forall q, q ∈ data replacement_2x1 -> ~ within_threshold 32 32 32 q)
  /\ exists out,
      replaceMostCommonColor 32 32 32 target_3x3 replacement_2x1 = Ok out
      /\ replaceMostCommonColor 32 32 32 out replacement_2x1 = Ok out.
Proof.
  split; [exact target_3x3_ok|]. split; [exact replacement_2x1_ok|].
  split; [simpl; lia|]. split; [simpl; lia|].
  split; [exact replacement_2x1_far|].
  apply (substituter_idempotent 32 32 32 target_3x3 replacement_2x1).
  - exact target_3x3_ok.
  - exact replacement_2x1_ok.
  - simpl. lia.
  - simpl. lia.
  - exact replacement_2x1_far.
Defined.

(** X4. The hypothesis on the replacement is not needed by the code: a second
    pass writes at each position the pixel the first pass wrote there. *)
Lemma substituter_idempotent_any (r g b : Z) (target replacement : Mat) :
  Mat_ok target -> Mat_ok replacement ->
  1 <= rows replacement -> 1 <= cols replacement ->
  exists out,
    replaceMostCommonColor r g b target replacement = Ok out
    /\ replaceMostCommonColor r g b out replacement = Ok out.
Proof.
  intros Ht Hrep Hrows Hcols.
  destruct (replaceMostCommonColor_spec r g b replacement Hrep Hrows Hcols target Ht)
    as (out & Hrun & Hok & Hr & Hc & Hat).
  destruct (replaceMostCommonColor_spec r g b replacement Hrep Hrows Hcols out Hok)
    as (out2 & Hrun2 & Hok2 & Hr2 & Hc2 & Hat2).
  exists out. split; [done|]. rewrite Hrun2. f_equal.
  symmetry. apply mat_ext; [done|done|congruence|congruence|].
  intros i j Hin. rewrite Hat2. unfold substituted at 1.
  assert (Hscan : scanned out i j = scanned target i j).
  { unfold scanned. by rewrite Hr, Hc. }
  rewrite Hscan, Hat. unfold substituted.
  destruct (mat_at target i j) as [p|] eqn:Hp; [simpl|done].
  destruct (scanned target i j && within_bucket r g b p) eqn:Hcond; simpl.
  - destruct (tile replacement i j) as [q|] eqn:Hq; [simpl|done].
    apply andb_true_iff in Hcond as [-> _]. simpl.
    by destruct (within_bucket r g b q).
  - by rewrite Hcond.
Qed.

(** ** Foregrounds of at most one row or one column *)

Lemma for_each_skip {I S : Type} (l : list I) (body : I -> S -> result S) (s : S) :
  (forall i, i ∈ l -> body i s = Ok s) -> for_each l body s = Ok s.
Proof.
  induction l as [|i l IH]; intros Hbody; simpl; [done|].
  rewrite Hbody by left. simpl. apply IH. intros i' Hi'. apply Hbody. by right.
Qed.

Lemma for_loop_none {S : Type} (n : Z) (body : Z -> S -> result S) (s : S) :
  n <= 0 -> for_loop n body s = Ok s.
Proof. intros Hn. unfold for_loop. by rewrite seqZ_nil. Qed.

Lemma nested_loops_none {S : Type} (n m : Z) (body : Z -> Z -> S -> result S) (s : S) :
  n <= 0 \/ m <= 0 ->
  for_loop n (fun i s => for_loop m (fun j s => body i j s) s) s = Ok s.
Proof.
  intros [Hn|Hm]; [by apply for_loop_none|].
  apply for_each_skip. intros i _. by apply for_loop_none.
Qed.

(** C10. For a foreground of at most one row or at most one column, and any
    background, the histogram is all zero, the dominant colour is
    (32,32,32) whatever the foreground holds, and the composition returns
    the foreground itself: no pixel is rewritten. *)
Theorem overlay_thin_foreground (foreground background : Mat) :
  rows foreground <= 1 \/ cols foreground <= 1 ->
  createColorHistogram foreground = Ok hist_zero
  /\ (forall i j k, in_grid i j k = true -> hist_at hist_zero i j k = Ok 0)
  /\ (do hist <- createColorHistogram foreground; findMostCommonColor 0 0 0 hist)
     = Ok (32, 32, 32)
  /\ replaceMostCommonColor 32 32 32 foreground background = Ok foreground
  /\ createOverlayImage foreground background = Ok foreground.
Proof.
  intros Hthin.
  assert (Hhist : createColorHistogram foreground = Ok hist_zero).
  { unfold createColorHistogram.
    apply (nested_loops_none _ _ (fun row col hist =>
      do pr <- mat_at foreground row col;
      let r := Z.quot (uchar_to_int (vec_get pr RED_PIX)) BUCKET_SIZE in
      do pg <- mat_at foreground row col;
      let g := Z.quot (uchar_to_int (vec_get pg GREEN_PIX)) BUCKET_SIZE in
      do pb <- mat_at foreground row col;
      let b := Z.quot (uchar_to_int (vec_get pb BLUE_PIX)) BUCKET_SIZE in
      hist_incr hist r g b)). lia. }
  assert (Hrep : replaceMostCommonColor 32 32 32 foreground background = Ok foreground).
  { unfold replaceMostCommonColor.
    apply (nested_loops_none _ _ (fun i j t =>
      replace_pixel 32 32 32 background i j t)). lia. }
  split_and!.
  - exact Hhist.
  - exact hist_zero_cells.
  - by rewrite Hhist.
  - exact Hrep.
  - unfold createOverlayImage. rewrite Hhist. exact Hrep.
Qed.

Lemma overlay_thin_foreground_witness :
  (rows image_1x3 <= 1 \/ cols image_1x3 <= 1)
  /\ createColorHistogram image_1x3 = Ok hist_zero
  /\ (forall i j k, in_grid i j k = true -> hist_at hist_zero i j k = Ok 0)
  /\ (do hist <- createColorHistogram image_1x3; findMostCommonColor 0 0 0 hist)
     = Ok (32, 32, 32)
  /\ replaceMostCommonColor 32 32 32 image_1x3 replacement_0x0 = Ok image_1x3
  /\ createOverlayImage image_1x3 replacement_0x0 = Ok image_1x3.
Proof.
  assert (Hthin : rows image_1x3 <= 1 \/ cols image_1x3 <= 1) by (left; simpl; lia).
  split; [exact Hthin|].
  exact (overlay_thin_foreground image_1x3 replacement_0x0 Hthin).
Defined.

(** * Further properties of the routines *)

(** ** The substituter *)

Lemma replace_pixel_keep (r g b : Z) (replacement : Mat) (i j : Z) (t : Mat) (p : Vec3b) :
  mat_at t i j = Ok p -> within_bucket r g b p = false ->
  replace_pixel r g b replacement i j t = Ok t.
Proof. intros Hp Hw. unfold replace_pixel. rewrite Hp. simpl. by rewrite Hw. Qed.

(** X5. When no scanned pixel of the target is within the threshold, the
    substituter returns the target itself and never reads the replacement:
    this holds for every replacement, also one without rows or columns. *)
Theorem substituter_no_match_identity (r g b : Z) (target replacement : Mat) :
  Mat_ok target ->
  (forall i j p, scanned target i j = true -> mat_at target i j = Ok p ->
                 ~ within_threshold r g b p) ->
  replaceMostCommonColor r g b target replacement = Ok target.
Proof.
  intros Hok Hfar. unfold replaceMostCommonColor, for_loop.
  rewrite (for_each_nested _ _ (fun i j t => replace_pixel r g b replacement i j t)).
  apply for_each_skip. intros [i j] Hij%elem_of_scanned_positions. simpl.
  destruct (mat_at_ok target i j Hok (scanned_in_mat _ _ _ Hij)) as (p & _ & Hp).
  apply (replace_pixel_keep _ _ _ _ _ _ _ p Hp).
  apply not_true_is_false. intros Hw%within_bucket_threshold. by eapply Hfar.
Qed.

Lemma target_3x3_far_200 (i j : Z) (p : Vec3b) :
  scanned target_3x3 i j = true -> mat_at target_3x3 i j = Ok p ->
  ~ within_threshold 200 200 200 p.
Proof.
  intros _ Hp%mat_at_elem_of Hw%within_bucket_threshold.
  apply elem_of_replicate in Hp as [-> _]. discriminate Hw.
Defined.

Lemma substituter_no_match_identity_witness :
  Mat_ok target_3x3
  /\ replaceMostCommonColor 200 200 200 target_3x3 replacement_0x0 = Ok target_3x3.
Proof.
  split; [exact target_3x3_ok|].
  apply (substituter_no_match_identity 200 200 200 target_3x3 replacement_0x0).
  - exact target_3x3_ok.
  - exact target_3x3_far_200.
Defined.

(** X6. When the replacement has at least as many rows and columns as the
    target, nothing wraps: a scanned target pixel within the threshold
    becomes the replacement pixel at the same row and column. *)
Theorem substituter_no_wrap (r g b : Z) (target replacement : Mat) :
  Mat_ok target -> Mat_ok replacement ->
  1 <= rows replacement -> 1 <= cols replacement ->
  rows target <= rows replacement -> cols target <= cols replacement ->
  exists out,
    replaceMostCommonColor r g b target replacement = Ok out
    /\ forall i j p,
         scanned target i j = true -> mat_at target i j = Ok p ->
         within_threshold r g b p ->
         mat_at out i j = mat_at replacement i j.
Proof.
  intros Ht Hrep Hrows Hcols Hler Hlec.
  destruct (replaceMostCommonColor_spec r g b replacement Hrep Hrows Hcols target Ht)
    as (out & Hrun & _ & _ & _ & Hat).
  exists out. split; [done|]. intros i j p Hs Hp Hw%within_bucket_threshold.
  rewrite Hat. unfold substituted, tile. rewrite Hp. simpl. rewrite Hs, Hw. simpl.
  unfold scanned in Hs. rewrite !andb_true_iff in Hs.
  rewrite !Z.mod_small by lia. done.
Qed.

Lemma substituter_no_wrap_witness :
  Mat_ok image_2x2 /\ Mat_ok target_3x3
  /\ exists out,
      replaceMostCommonColor 32 32 32 image_2x2 target_3x3 = Ok out
      /\ forall i j p,
           scanned image_2x2 i j = true -> mat_at image_2x2 i j = Ok p ->
           within_threshold 32 32 32 p ->
           mat_at out i j = mat_at target_3x3 i j.
Proof.
  split; [exact image_2x2_ok|]. split; [exact target_3x3_ok|].
  apply (substituter_no_wrap 32 32 32 image_2x2 target_3x3).
  - exact image_2x2_ok.
  - exact target_3x3_ok.
  - simpl. lia.
  - simpl. lia.
  - simpl. lia.
  - simpl. lia.
Defined.

(** X7. The replacement repeats with its own height and width: two scanned
    target pixels within the threshold whose rows differ by a multiple of
    [replacement.rows] and whose columns differ by a multiple of
    [replacement.cols] end up equal. *)
Theorem substituter_tiles_periodically (r g b : Z) (target replacement : Mat) :
  Mat_ok target -> Mat_ok replacement ->
  1 <= rows replacement -> 1 <= cols replacement ->
  exists out,
    replaceMostCommonColor r g b target replacement = Ok out
    /\ forall i j m n p p',
         scanned target i j = true ->
         scanned target (i + m * rows replacement) (j + n * cols replacement) = true ->
         mat_at target i j = Ok p ->
         mat_at target (i + m * rows replacement) (j + n * cols replacement) = Ok p' ->
         within_threshold r g b p -> within_threshold r g b p' ->
         mat_at out (i + m * rows replacement) (j + n * cols replacement)
         = mat_at out i j.
Proof.
  intros Ht Hrep Hrows Hcols.
  destruct (replaceMostCommonColor_spec r g b replacement Hrep Hrows Hcols target Ht)
    as (out & Hrun & _ & _ & _ & Hat).
  exists out. split; [done|].
  intros i j m n p p' Hs Hs' Hp Hp' Hw%within_bucket_threshold Hw'%within_bucket_threshold.
  rewrite !Hat. unfold substituted, tile. rewrite Hp, Hp'. simpl.
  rewrite Hs, Hs', Hw, Hw'. simpl.
  by rewrite !Z.mod_add by lia.
Qed.

Lemma substituter_tiles_periodically_witness :
  Mat_ok target_3x3 /\ Mat_ok replacement_1x1
  /\ exists out,
      replaceMostCommonColor 32 32 32 target_3x3 replacement_1x1 = Ok out
      /\ forall i j m n p p',
           scanned target_3x3 i j = true ->
           scanned target_3x3 (i + m * rows replacement_1x1)
                   (j + n * cols replacement_1x1) = true ->
           mat_at target_3x3 i j = Ok p ->
           mat_at target_3x3 (i + m * rows replacement_1x1)
                  (j + n * cols replacement_1x1) = Ok p' ->
           within_threshold 32 32 32 p -> within_threshold 32 32 32 p' ->
           mat_at out (i + m * rows replacement_1x1) (j + n * cols replacement_1x1)
           = mat_at out i j.
Proof.
  split; [exact target_3x3_ok|]. split; [exact replacement_1x1_ok|].
  apply (substituter_tiles_periodically 32 32 32 target_3x3 replacement_1x1).
  - exact target_3x3_ok.
  - exact replacement_1x1_ok.
  - simpl. lia.
  - simpl. lia.
Defined.

(** X8. The substituter keeps the shape of the target: the image it returns
    is well formed and has the rows, the columns and the buffer length of the
    target, whatever the colour. *)
Theorem substituter_preserves_shape (r g b : Z) (target replacement : Mat) :
  Mat_ok target -> Mat_ok replacement ->
  1 <= rows replacement -> 1 <= cols replacement ->
  exists out,
    replaceMostCommonColor r g b target replacement = Ok out
    /\ Mat_ok out /\ rows out = rows target /\ cols out = cols target
    /\ length (data out) = length (data target).
Proof.
  intros Ht Hrep Hrows Hcols.
  destruct (replaceMostCommonColor_spec r g b replacement Hrep Hrows Hcols target Ht)
    as (out & Hrun & Hok & Hr & Hc & _).
  exists out. split_and!; try done.
  destruct Ht as (_ & _ & Hlen), Hok as (_ & _ & Hlen'). nia.
Qed.

Lemma substituter_preserves_shape_witness :
  Mat_ok target_3x3 /\ Mat_ok replacement_2x1
  /\ exists out,
      replaceMostCommonColor 32 32 32 target_3x3 replacement_2x1 = Ok out
      /\ Mat_ok out /\ rows out = rows target_3x3 /\ cols out = cols target_3x3
      /\ length (data out) = length (data target_3x3).
Proof.
  split; [exact target_3x3_ok|]. split; [exact replacement_2x1_ok|].
  apply (substituter_preserves_shape 32 32 32 target_3x3 replacement_2x1).
  - exact target_3x3_ok.
  - exact replacement_2x1_ok.
  - simpl. lia.
  - simpl. lia.
Defined.

(** ** The locator *)

Lemma scan_before_total (i j k i' j' k' : Z) :
  (i, j, k) <> (i', j', k') ->
  scan_before i j k i' j' k' \/ scan_before i' j' k' i j k.
Proof.
  intros Hne. unfold scan_before.
  destruct (decide (i = i')) as [->|]; [|lia].
  destruct (decide (j = j')) as [->|]; [|lia].
  destruct (decide (k = k')) as [->|]; [done|lia].
Qed.

Lemma first_max_unique (hist : list Z) (i j k i' j' k' : Z) :
  first_max hist i j k -> first_max hist i' j' k' -> (i, j, k) = (i', j', k').
Proof.
  intros (v & Hv & Hall & Hbefore) (v' & Hv' & Hall' & Hbefore').
  destruct (decide ((i, j, k) = (i', j', k'))) as [|Hne]; [done|].
  pose proof (Hall _ _ _ _ Hv'). pose proof (Hall' _ _ _ _ Hv).
  destruct (scan_before_total _ _ _ _ _ _ Hne) as [Hb|Hb].
  - pose proof (Hbefore' _ _ _ _ Hb Hv). lia.
  - pose proof (Hbefore _ _ _ _ Hb Hv'). lia.
Qed.

(** X9. The first maximal cell is unique and decides the result: whenever
    [(i, j, k)] is the first cell in scan order holding the largest count,
    the locator (started with 0 in [r], [g], [b]) returns the midpoints of
    buckets [i], [j] and [k]. *)
Theorem locator_returns_first_max (hist : list Z) (i j k : Z) :
  hist_ok hist -> first_max hist i j k ->
  findMostCommonColor 0 0 0 hist = Ok (i * 64 + 32, j * 64 + 32, k * 64 + 32).
Proof.
  intros Hok Hmax.
  destruct (locator_result hist Hok) as (i0 & j0 & k0 & _ & Hres & Hmax0).
  pose proof (first_max_unique _ _ _ _ _ _ _ Hmax Hmax0) as Heq.
  injection Heq as -> -> ->. exact Hres.
Qed.

Lemma hist_tie_first_max : first_max hist_tie 1 2 3.
Proof.
  exists 2. split; [reflexivity|].
  assert (Hcases : forall i' j' k' v', hist_at hist_tie i' j' k' = Ok v' ->
    (v' = 2 /\ ((i', j', k') = (1, 2, 3) \/ (i', j', k') = (3, 0, 0)))
    \/ v' = 0).
  { intros i' j' k' v' Hat.
    pose proof (hist_at_cell_value _ _ _ _ _ Hat) as [_ Hin%in_grid_spec].
    unfold SIZE in Hin.
    assert (Hi : i' = 0 \/ i' = 1 \/ i' = 2 \/ i' = 3) by lia.
    assert (Hj : j' = 0 \/ j' = 1 \/ j' = 2 \/ j' = 3) by lia.
    assert (Hk : k' = 0 \/ k' = 1 \/ k' = 2 \/ k' = 3) by lia.
    destruct Hi as [->|[->|[->| ->]]], Hj as [->|[->|[->| ->]]],
             Hk as [->|[->|[->| ->]]];
      vm_compute in Hat; injection Hat as <-; auto. }
  split.
  - intros i' j' k' v' Hat. destruct (Hcases _ _ _ _ Hat) as [[-> _]| ->]; lia.
  - intros i' j' k' v' Hbefore Hat.
    destruct (Hcases _ _ _ _ Hat) as [[-> [Heq|Heq]]| ->]; [| |lia];
      injection Heq as -> -> ->; unfold scan_before in Hbefore; lia.
Defined.

Lemma locator_returns_first_max_witness :
  hist_ok hist_tie /\ first_max hist_tie 1 2 3
  /\ findMostCommonColor 0 0 0 hist_tie = Ok (1 * 64 + 32, 2 * 64 + 32, 3 * 64 + 32).
Proof.
  split; [reflexivity|]. split; [exact hist_tie_first_max|].
  apply (locator_returns_first_max hist_tie 1 2 3); [reflexivity|].
  exact hist_tie_first_max.
Defined.

(** Two scans that start from the same [highestValue] either both keep
    their starting state or end in the same state. *)
Lemma scan_fold_same_highest (hist : list Z) (l : list (Z * (Z * Z))) :
  forall s s' : scan_state,
    highestValue s = highestValue s' ->
    (fold_left (scan_step hist) l s = s /\ fold_left (scan_step hist) l s' = s')
    \/ fold_left (scan_step hist) l s = fold_left (scan_step hist) l s'.
Proof.
  induction l as [|c l IH]; intros s s' Heq; simpl; [by left|].
  destruct (cell_value hist c >? highestValue s') eqn:Hgt.
  - assert (Hstep : scan_step hist s c = scan_step hist s' c).
    { unfold scan_step. by rewrite Heq, Hgt. }
    rewrite Hstep. by right.
  - assert (Hstep : scan_step hist s c = s) by (unfold scan_step; by rewrite Heq, Hgt).
    assert (Hstep' : scan_step hist s' c = s') by (unfold scan_step; by rewrite Hgt).
    rewrite Hstep, Hstep'. by apply IH.
Qed.

(** X10. As soon as some cell holds more than cell (0,0,0) the values the
    caller left in [r], [g] and [b] do not matter: the locator returns what
    it returns when started with 0. *)
Theorem locator_ignores_caller_values (r g b : Z) (hist : list Z) :
  hist_ok hist ->
  (exists i j k v v0,
      hist_at hist i j k = Ok v /\ hist_at hist 0 0 0 = Ok v0 /\ v0 < v) ->
  findMostCommonColor r g b hist = findMostCommonColor 0 0 0 hist.
Proof.
  intros Hok (i & j & k & v & v0 & Hv & Hv0 & Hlt).
  apply hist_at_cell_value in Hv as [-> Hin], Hv0 as [-> _].
  unfold findMostCommonColor.
  rewrite (hist_at_grid hist 0 0 0 Hok) by done. cbn [bind].
  rewrite !locator_loops_fold by done. cbn [bind].
  set (h0 := cell_value hist (0, (0, 0))) in *.
  destruct (scan_fold_same_highest hist grid_cells (mkScan r g b h0) (mkScan 0 0 0 h0))
    as [[Hkeep _]|Hsame]; [done| |by rewrite Hsame].
  pose proof (scan_fold_first_max hist grid_cells (mkScan r g b h0)) as Hscan.
  cbv zeta in Hscan. rewrite Hkeep in Hscan. simpl in Hscan.
  destruct Hscan as [[_ Hall]|(_ & _ & _ & _ & Habs & _)]; [|lia].
  rewrite Forall_forall in Hall.
  apply elem_of_grid_cells in Hin. apply Hall in Hin. lia.
Qed.

Lemma locator_ignores_caller_values_witness :
  hist_ok hist_tie
  /\ findMostCommonColor 7 8 9 hist_tie = findMostCommonColor 0 0 0 hist_tie.
Proof.
  split; [reflexivity|].
  apply (locator_ignores_caller_values 7 8 9 hist_tie); [reflexivity|].
  exists 1, 2, 3, 2, 0. split; [reflexivity|]. split; [reflexivity|lia].
Defined.

(** ** The composition *)

(** A pixel of cell [(i, j, k)] is within the threshold of the midpoints of
    the cell: each channel is at most 32 away. *)
Lemma in_cell_within (i j k : Z) (p : Vec3b) :
  in_cell i j k p = true ->
  within_bucket (midpoint i) (midpoint j) (midpoint k) p = true.
Proof.
  unfold in_cell, in_bucket, within_bucket, midpoint. rewrite BUCKET_SIZE_eq.
  rewrite !andb_true_iff, !Z.leb_le, !Z.ltb_lt, !Z.geb_le. lia.
Qed.

(** A pixel with a channel two buckets or more away from the cell is not
    within the threshold of its midpoints. *)
Lemma far_bucket_not_within (i j k : Z) (p : Vec3b) :
  2 <= Z.abs (bucket_of (vec_get p RED_PIX) - i)
  \/ 2 <= Z.abs (bucket_of (vec_get p GREEN_PIX) - j)
  \/ 2 <= Z.abs (bucket_of (vec_get p BLUE_PIX) - k) ->
  within_bucket (midpoint i) (midpoint j) (midpoint k) p = false.
Proof.
  intros Hfar. apply not_true_is_false. unfold within_bucket, midpoint.
  rewrite BUCKET_SIZE_eq, !andb_true_iff, !Z.leb_le, !Z.geb_le.
  assert (Hb : forall c : uchar,
    bucket_of c * 64 <= uchar_to_int c < (bucket_of c + 1) * 64).
  { intros c. pose proof (proj2 (in_bucket_bucket_of (bucket_of c) c) eq_refl) as Hin.
    unfold in_bucket in Hin. rewrite BUCKET_SIZE_eq in Hin.
    by rewrite andb_true_iff, Z.leb_le, Z.ltb_lt in Hin. }
  pose proof (Hb (vec_get p RED_PIX)). pose proof (Hb (vec_get p GREEN_PIX)).
  pose proof (Hb (vec_get p BLUE_PIX)). lia.
Qed.

(** The composition, step by step: the histogram of the foreground, its
    first maximal cell, and the substitution with the midpoints of that
    cell. *)
Lemma createOverlayImage_dominant (foreground background : Mat) :
  Mat_ok foreground -> Mat_ok background ->
  1 <= rows background -> 1 <= cols background ->
  exists i j k overlay,
    in_grid i j k = true
    /\ first_max (fold_left tally (scanned_pixels foreground) hist_zero) i j k
    /\ createOverlayImage foreground background = Ok overlay
    /\ forall row col,
         mat_at overlay row col
         = substituted (midpoint i) (midpoint j) (midpoint k) background
                       foreground row col.
Proof.
  intros Hfg Hbg Hrows Hcols.
  pose proof (createColorHistogram_fold foreground Hfg) as Hhist.
  set (hist := fold_left tally (scanned_pixels foreground) hist_zero) in *.
  assert (Hok : hist_ok hist) by apply tally_fold_ok, hist_zero_ok.
  destruct (locator_result hist Hok) as (i & j & k & Hin & Hloc & Hmax).
  destruct (replaceMostCommonColor_spec (midpoint i) (midpoint j) (midpoint k)
              background Hbg Hrows Hcols foreground Hfg)
    as (overlay & Hrun & _ & _ & _ & Hat).
  exists i, j, k, overlay. split_and!; try done.
  unfold createOverlayImage. rewrite Hhist. cbn [bind]. rewrite Hloc. cbn [bind].
  exact Hrun.
Qed.

(** X11. In the image the composition returns, every scanned foreground
    pixel that belongs to the most common cell of the histogram (red, green
    and blue in the buckets of the first maximal cell) is the background
    pixel at the wrapped position. *)
Theorem overlay_replaces_dominant_cell (foreground background : Mat) :
  Mat_ok foreground -> Mat_ok background ->
  1 <= rows background -> 1 <= cols background ->
  exists hist i j k overlay,
    createColorHistogram foreground = Ok hist
    /\ first_max hist i j k
    /\ createOverlayImage foreground background = Ok overlay
    /\ forall row col p,
         scanned foreground row col = true -> mat_at foreground row col = Ok p ->
         in_cell i j k p = true ->
         mat_at overlay row col
         = mat_at background (row mod rows background) (col mod cols background).
Proof.
  intros Hfg Hbg Hrows Hcols.
  destruct (createOverlayImage_dominant foreground background Hfg Hbg Hrows Hcols)
    as (i & j & k & overlay & _ & Hmax & Hover & Hat).
  exists (fold_left tally (scanned_pixels foreground) hist_zero), i, j, k, overlay.
  split_and!; [by apply createColorHistogram_fold|done|done|].
  intros row col p Hs Hp Hcell%in_cell_within.
  rewrite Hat. unfold substituted. rewrite Hp. simpl. by rewrite Hs, Hcell.
Qed.

Lemma overlay_replaces_dominant_cell_witness :
  Mat_ok target_3x3 /\ Mat_ok replacement_2x1
  /\ exists hist i j k overlay,
      createColorHistogram target_3x3 = Ok hist
      /\ first_max hist i j k
      /\ createOverlayImage target_3x3 replacement_2x1 = Ok overlay
      /\ forall row col p,
           scanned target_3x3 row col = true -> mat_at target_3x3 row col = Ok p ->
           in_cell i j k p = true ->
           mat_at overlay row col
           = mat_at replacement_2x1 (row mod rows replacement_2x1)
                    (col mod cols replacement_2x1).
Proof.
  split; [exact target_3x3_ok|]. split; [exact replacement_2x1_ok|].
  apply (overlay_replaces_dominant_cell target_3x3 replacement_2x1).
  - exact target_3x3_ok.
  - exact replacement_2x1_ok.
  - simpl. lia.
  - simpl. lia.
Defined.

(** X12. In the image the composition returns, a foreground pixel with a
    channel two buckets or more away from the most common cell keeps its
    value. *)
Theorem overlay_keeps_far_buckets (foreground background : Mat) :
  Mat_ok foreground -> Mat_ok background ->
  1 <= rows background -> 1 <= cols background ->
  exists hist i j k overlay,
    createColorHistogram foreground = Ok hist
    /\ first_max hist i j k
    /\ createOverlayImage foreground background = Ok overlay
    /\ forall row col p,
         mat_at foreground row col = Ok p ->
         2 <= Z.abs (Z.quot (uchar_to_int (vec_get p RED_PIX)) BUCKET_SIZE - i)
         \/ 2 <= Z.abs (Z.quot (uchar_to_int (vec_get p GREEN_PIX)) BUCKET_SIZE - j)
         \/ 2 <= Z.abs (Z.quot (uchar_to_int (vec_get p BLUE_PIX)) BUCKET_SIZE - k) ->
         mat_at overlay row col = Ok p.
Proof.
  intros Hfg Hbg Hrows Hcols.
  destruct (createOverlayImage_dominant foreground background Hfg Hbg Hrows Hcols)
    as (i & j & k & overlay & _ & Hmax & Hover & Hat).
  exists (fold_left tally (scanned_pixels foreground) hist_zero), i, j, k, overlay.
  split_and!; [by apply createColorHistogram_fold|done|done|].
  intros row col p Hp Hfar%far_bucket_not_within.
  rewrite Hat. unfold substituted. rewrite Hp. simpl.
  by rewrite Hfar, andb_false_r.
Qed.

Lemma overlay_keeps_far_buckets_witness :
  Mat_ok image_2x2 /\ Mat_ok replacement_1x1
  /\ exists hist i j k overlay,
      createColorHistogram image_2x2 = Ok hist
      /\ first_max hist i j k
      /\ createOverlayImage image_2x2 replacement_1x1 = Ok overlay
      /\ forall row col p,
           mat_at image_2x2 row col = Ok p ->
           2 <= Z.abs (Z.quot (uchar_to_int (vec_get p RED_PIX)) BUCKET_SIZE - i)
           \/ 2 <= Z.abs (Z.quot (uchar_to_int (vec_get p GREEN_PIX)) BUCKET_SIZE - j)
           \/ 2 <= Z.abs (Z.quot (uchar_to_int (vec_get p BLUE_PIX)) BUCKET_SIZE - k) ->
           mat_at overlay row col = Ok p.
Proof.
  split; [exact image_2x2_ok|]. split; [exact replacement_1x1_ok|].
  apply (overlay_keeps_far_buckets image_2x2 replacement_1x1).
  - exact image_2x2_ok.
  - exact replacement_1x1_ok.
  - simpl. lia.
  - simpl. lia.
Defined.

Lemma histogram_cells_count (image : Mat) (i j k : Z) :
  Z.of_nat (length (scanned_pixels image)) <= INT_MAX ->
  in_grid i j k = true ->
  hist_at (fold_left tally (scanned_pixels image) hist_zero) i j k
  = Ok (count_in_cell i j k (scanned_pixels image)).
Proof.
  intros Hfit Hin.
  destruct (tally_fold_count (scanned_pixels image) hist_zero hist_zero_ok
              (room_for_zero _ Hfit) i j k Hin) as (c & Hc & Hfold).
  apply lookup_replicate_1 in Hc as [-> _].
  unfold hist_at. by rewrite Hin, Hfold.
Qed.

(** X13. A foreground of at least two rows and two columns always shows
    some background: at one scanned position at least, the image the
    composition returns holds the background pixel at the wrapped position
    (the most common cell is never empty). *)
Theorem overlay_shows_background (foreground background : Mat) :
  Mat_ok foreground -> Mat_ok background ->
  1 <= rows background -> 1 <= cols background ->
  2 <= rows foreground -> 2 <= cols foreground ->
  Z.of_nat (length (scanned_pixels foreground)) <= INT_MAX ->
  exists overlay row col,
    createOverlayImage foreground background = Ok overlay
    /\ 0 <= row < rows foreground - 1 /\ 0 <= col < cols foreground - 1
    /\ mat_at overlay row col
       = mat_at background (row mod rows background) (col mod cols background).
Proof.
  intros Hfg Hbg Hrows Hcols H2r H2c Hfit.
  destruct (createOverlayImage_dominant foreground background Hfg Hbg Hrows Hcols)
    as (i & j & k & overlay & Hin & (v & Hv & Hall & _) & Hover & Hat).
  (* the pixel at (0,0) is scanned, so its cell counts one pixel at least *)
  assert (Hs0 : scanned foreground 0 0 = true).
  { unfold scanned. rewrite !andb_true_iff, !Z.leb_le, !Z.ltb_lt. lia. }
  destruct (mat_at_ok foreground 0 0 Hfg (scanned_in_mat _ _ _ Hs0)) as (p0 & Hp0 & _).
  assert (Hmem0 : p0 ∈ scanned_pixels foreground).
  { apply list_elem_of_omap. exists (0, 0). split; [|done].
    by apply elem_of_scanned_positions. }
  pose proof (cell_in_grid p0) as Hin0.
  assert (Hcell0 : in_cell (bucket_of (vec_get p0 RED_PIX))
                     (bucket_of (vec_get p0 GREEN_PIX))
                     (bucket_of (vec_get p0 BLUE_PIX)) p0 = true).
  { by apply in_cell_index. }
  pose proof (histogram_cells_count foreground _ _ _ Hfit Hin0) as Hc0.
  apply Hall in Hc0.
  assert (Hone : 1 <= count_in_cell (bucket_of (vec_get p0 RED_PIX))
                       (bucket_of (vec_get p0 GREEN_PIX))
                       (bucket_of (vec_get p0 BLUE_PIX)) (scanned_pixels foreground)).
  { unfold count_in_cell.
    assert (Hin_f : In p0 (List.filter (in_cell (bucket_of (vec_get p0 RED_PIX))
                     (bucket_of (vec_get p0 GREEN_PIX))
                     (bucket_of (vec_get p0 BLUE_PIX))) (scanned_pixels foreground))).
    { apply filter_In. split; [by apply list_elem_of_In|done]. }
    destruct (List.filter _ _); [destruct Hin_f|simpl; lia]. }
  (* hence the most common cell counts one pixel at least *)
  rewrite (histogram_cells_count foreground i j k Hfit Hin) in Hv.
  injection Hv as Hv. unfold count_in_cell in Hv.
  destruct (List.filter (in_cell i j k) (scanned_pixels foreground)) as [|p ps] eqn:Hf.
  { simpl in Hv. lia. }
  assert (Hp : In p (List.filter (in_cell i j k) (scanned_pixels foreground))).
  { rewrite Hf. by left. }
  apply filter_In in Hp as [Hp Hcell]. apply list_elem_of_In in Hp.
  apply list_elem_of_omap in Hp as ([row col] & Hpos & Hlook). simpl in Hlook.
  apply elem_of_scanned_positions in Hpos.
  pose proof (scanned_in_mat _ _ _ Hpos) as Hinm.
  apply (mat_at_lookup foreground row col Hfg Hinm) in Hlook.
  exists overlay, row, col. split; [done|].
  pose proof Hpos as Hrange. unfold scanned in Hrange.
  rewrite !andb_true_iff, !Z.leb_le, !Z.ltb_lt in Hrange.
  split; [lia|]. split; [lia|].
  rewrite Hat. unfold substituted. rewrite Hlook. simpl.
  by rewrite Hpos, (in_cell_within _ _ _ _ Hcell).
Qed.

Lemma overlay_shows_background_witness :
  Mat_ok image_2x2 /\ Mat_ok replacement_1x1
  /\ 2 <= rows image_2x2 /\ 2 <= cols image_2x2
  /\ exists overlay row col,
      createOverlayImage image_2x2 replacement_1x1 = Ok overlay
      /\ 0 <= row < rows image_2x2 - 1 /\ 0 <= col < cols image_2x2 - 1
      /\ mat_at overlay row col
         = mat_at replacement_1x1 (row mod rows replacement_1x1)
                  (col mod cols replacement_1x1).
Proof.
  split; [exact image_2x2_ok|]. split; [exact replacement_1x1_ok|].
  split; [simpl; lia|]. split; [simpl; lia|].
  apply (overlay_shows_background image_2x2 replacement_1x1).
  - exact image_2x2_ok.
  - exact replacement_1x1_ok.
  - simpl. lia.
  - simpl. lia.
  - simpl. lia.
  - simpl. lia.
  - by vm_compute.
Defined.

(** ** The histogram builder *)

Lemma tally_same_cell (hist : list Z) (p p' : Vec3b) :
  cell_index p = cell_index p' -> tally hist p = tally hist p'.
Proof. intros Heq. unfold tally. by rewrite Heq. Qed.

Lemma tally_fold_same_cells (ps ps' : list Vec3b) :
  Forall2 (fun p p' => cell_index p = cell_index p') ps ps' ->
  forall hist, fold_left tally ps hist = fold_left tally ps' hist.
Proof.
  induction 1 as [|p p' ps ps' Hp _ IH]; intros hist; simpl; [done|].
  by rewrite (tally_same_cell hist p p' Hp), IH.
Qed.

(** X14. The histogram sees a pixel through its three buckets only: two
    images of the same size whose scanned pixels fall, position by position,
    in the same buckets have the same histogram. *)
Theorem histogram_depends_on_buckets (image image' : Mat) :
  Mat_ok image -> Mat_ok image' ->
  rows image = rows image' -> cols image = cols image' ->
  (forall i j p p',
      0 <= i < rows image - 1 -> 0 <= j < cols image - 1 ->
      mat_at image i j = Ok p -> mat_at image' i j = Ok p' ->
      Z.quot (uchar_to_int (vec_get p RED_PIX)) BUCKET_SIZE
      = Z.quot (uchar_to_int (vec_get p' RED_PIX)) BUCKET_SIZE
      /\ Z.quot (uchar_to_int (vec_get p GREEN_PIX)) BUCKET_SIZE
         = Z.quot (uchar_to_int (vec_get p' GREEN_PIX)) BUCKET_SIZE
      /\ Z.quot (uchar_to_int (vec_get p BLUE_PIX)) BUCKET_SIZE
         = Z.quot (uchar_to_int (vec_get p' BLUE_PIX)) BUCKET_SIZE) ->
  exists hist, createColorHistogram image = Ok hist
               /\ createColorHistogram image' = Ok hist.
Proof.
  intros Hok Hok' Hrows Hcols Hsame.
  exists (fold_left tally (scanned_pixels image) hist_zero).
  split; [by apply createColorHistogram_fold|].
  rewrite (createColorHistogram_fold image' Hok'). f_equal. symmetry.
  apply tally_fold_same_cells.
  unfold scanned_pixels at 2. unfold scanned_positions.
  rewrite <- Hrows, <- Hcols. fold (scanned_positions image). unfold scanned_pixels.
  assert (Hall : forall l : list (Z * Z),
    (forall i j, (i, j) ∈ l -> scanned image i j = true) ->
    Forall2 (fun p p' => cell_index p = cell_index p')
      (omap (fun ij => data image !! mat_offset image ij.1 ij.2) l)
      (omap (fun ij => data image' !! mat_offset image' ij.1 ij.2) l)).
  { induction l as [|[i j] l IH]; intros Hl; [constructor|].
    assert (Hs : scanned image i j = true) by (apply Hl; left).
    pose proof (scanned_in_mat _ _ _ Hs) as Hin.
    assert (Hin' : in_mat image' i j = true).
    { unfold in_mat. rewrite <- Hrows, <- Hcols. exact Hin. }
    destruct (mat_at_ok image i j Hok Hin) as (p & Hp & Hat).
    destruct (mat_at_ok image' i j Hok' Hin') as (p' & Hp' & Hat').
    cbn [omap list_omap fst snd]. rewrite Hp, Hp'. constructor.
    - unfold scanned in Hs. rewrite !andb_true_iff, !Z.leb_le, !Z.ltb_lt in Hs.
      destruct (Hsame i j p p') as (Hr & Hg & Hb); [lia|lia|done|done|].
      unfold cell_index, bucket_of. by rewrite Hr, Hg, Hb.
    - apply IH. intros i' j' Hij. apply Hl. by right. }
  apply Hall. intros i j Hij. by apply elem_of_scanned_positions.
Qed.

Lemma image_2x2_shade_ok : Mat_ok image_2x2_shade.
Proof. unfold Mat_ok. simpl. lia. Defined.

Lemma histogram_depends_on_buckets_witness :
  Mat_ok image_2x2 /\ Mat_ok image_2x2_shade
  /\ exists hist, createColorHistogram image_2x2 = Ok hist
                  /\ createColorHistogram image_2x2_shade = Ok hist.
Proof.
  split; [exact image_2x2_ok|]. split; [exact image_2x2_shade_ok|].
  apply (histogram_depends_on_buckets image_2x2 image_2x2_shade).
  - exact image_2x2_ok.
  - exact image_2x2_shade_ok.
  - reflexivity.
  - reflexivity.
  - simpl. intros i j p p' Hi Hj.
    assert (i = 0) as -> by lia. assert (j = 0) as -> by lia.
    intros Hp Hp'. vm_compute in Hp, Hp'.
    injection Hp as <-. injection Hp' as <-. by vm_compute.
Defined.

(** ** Instances of the properties above *)

Lemma substituter_replaces_scanned_witness :
  Mat_ok target_3x3 /\ Mat_ok replacement_1x1
  /\ exists out,
      replaceMostCommonColor 32 32 32 target_3x3 replacement_1x1 = Ok out
      /\ forall i j p,
           scanned target_3x3 i j = true -> mat_at target_3x3 i j = Ok p ->
           within_threshold 32 32 32 p ->
           mat_at out i j
           = mat_at replacement_1x1 (i mod rows replacement_1x1)
                    (j mod cols replacement_1x1).
Proof.
  split; [exact target_3x3_ok|]. split; [exact replacement_1x1_ok|].
  apply (substituter_replaces_scanned 32 32 32 target_3x3 replacement_1x1).
  - exact target_3x3_ok.
  - exact replacement_1x1_ok.
  - simpl. lia.
  - simpl. lia.
Defined.

Lemma histogram_total_scanned_witness :
  Mat_ok image_2x2
  /\ exists hist,
      createColorHistogram image_2x2 = Ok hist
      /\ hist_total hist = Z.of_nat (length (scanned_pixels image_2x2))
      /\ (1 <= rows image_2x2 -> 1 <= cols image_2x2 ->
          hist_total hist = (rows image_2x2 - 1) * (cols image_2x2 - 1)).
Proof.
  split; [exact image_2x2_ok|].
  apply (histogram_total_scanned image_2x2); [exact image_2x2_ok|by vm_compute].
Defined.

Lemma hist_2x2_cells (i j k v : Z) :
  hist_at hist_2x2 i j k = Ok v -> v <= cell_value hist_2x2 (0, (0, 0)).
Proof.
  intros Hat.
  pose proof (hist_at_cell_value _ _ _ _ _ Hat) as [_ Hin%in_grid_spec].
  unfold SIZE in Hin. change (cell_value hist_2x2 (0, (0, 0))) with 1.
  assert (Hi : i = 0 \/ i = 1 \/ i = 2 \/ i = 3) by lia.
  assert (Hj : j = 0 \/ j = 1 \/ j = 2 \/ j = 3) by lia.
  assert (Hk : k = 0 \/ k = 1 \/ k = 2 \/ k = 3) by lia.
  destruct Hi as [->|[->|[->| ->]]], Hj as [->|[->|[->| ->]]],
           Hk as [->|[->|[->| ->]]];
    vm_compute in Hat; injection Hat as <-; lia.
Defined.

Lemma locator_keeps_caller_values_witness :
  hist_ok hist_2x2
  /\ findMostCommonColor 1 2 3 hist_2x2
     = Ok (wrap_int (1 * BUCKET_SIZE + Z.quot BUCKET_SIZE 2),
           wrap_int (2 * BUCKET_SIZE + Z.quot BUCKET_SIZE 2),
           wrap_int (3 * BUCKET_SIZE + Z.quot BUCKET_SIZE 2)).
Proof.
  split; [reflexivity|].
  apply (locator_keeps_caller_values 1 2 3 hist_2x2); [reflexivity|].
  exact hist_2x2_cells.
Defined.

Lemma substituter_idempotent_any_witness :
  Mat_ok target_3x3 /\ Mat_ok replacement_1x1
  /\ exists out,
      replaceMostCommonColor 32 32 32 target_3x3 replacement_1x1 = Ok out
      /\ replaceMostCommonColor 32 32 32 out replacement_1x1 = Ok out.
Proof.
  split; [exact target_3x3_ok|]. split; [exact replacement_1x1_ok|].
  apply (substituter_idempotent_any 32 32 32 target_3x3 replacement_1x1).
  - exact target_3x3_ok.
  - exact replacement_1x1_ok.
  - simpl. lia.
  - simpl. lia.
Defined.
